(** * rss_aggregator: the feed aggregation pipeline and the seen-set store

    A shallow embedding of [rss_aggregator.py].  The outside world the
    script talks to (the clock, the HTTP session, feedparser, dateutil and
    the file system) is described by the outcomes the script distinguishes:
    which exception class an outside call raises decides which handler of
    the script runs. *)

From stdpp Require Import base gmap sets list strings sorting pretty.
From Stdlib Require Import ZArith Lia.

#[local] Set Warnings "-clear-no-such-hyp".

(** ** Python values *)

(** What a call does: it returns a value or raises. *)
Inductive exception :=
| UnicodeDecodeError
| TypeError
| OSError.

Inductive py_result (A : Type) :=
| Returns (a : A)
| Raises (e : exception).
Arguments Returns {A} a.
Arguments Raises {A} e.

(** [not s] for an optional string: [None] and the empty string are falsy. *)
Definition py_not (s : option string) : bool :=
  match s with
  | None => true
  | Some EmptyString => true
  | Some (String _ _) => false
  end.

(** ** datetime

    Times are counted in microseconds, the resolution of [datetime].  An
    aware datetime carries the offset of its zone; two aware datetimes
    compare by the instant they denote. *)
Record datetime := { wall : Z; utcoffset : option Z }.

Definition instant (d : datetime) : Z := (wall d - default 0 (utcoffset d))%Z.

(** [d.replace(tzinfo=timezone.utc)] *)
Definition replace_tzinfo_utc (d : datetime) : datetime :=
  {| wall := wall d; utcoffset := Some 0%Z |}.

(** [a >= b] on aware datetimes *)
Definition datetime_ge (a b : datetime) : bool := (instant b <=? instant a)%Z.

(** [datetime.min] and [datetime.max] (years 1 to 9999), from the epoch. *)
Definition datetime_min : Z := (-62135596800 * 1000000)%Z.
Definition datetime_max : Z := (253402300799 * 1000000 + 999999)%Z.

(** [timedelta(days=n)]: the day count is bounded, beyond it OverflowError. *)
Definition timedelta_days (days : Z) : option Z :=
  if (Z.abs days <=? 999999999)%Z then Some (days * 86400000000)%Z else None.

(** [datetime.now(timezone.utc) - timedelta(days=article_age_days)] *)
Definition cutoff_of (now article_age_days : Z) : option datetime :=
  match timedelta_days article_age_days with
  | None => None
  | Some delta =>
      let r := (now - delta)%Z in
      if ((datetime_min <=? r) && (r <=? datetime_max))%Z
      then Some {| wall := r; utcoffset := Some 0%Z |}
      else None
  end.

(** ** Feeds, entries and articles *)

(** A feedparser entry: each key may be absent ([entry.get] gives None). *)
Record entry := {
  entry_link : option string;
  entry_published : option string;
  entry_updated : option string;
  entry_title : option string
}.

Record parsed_feed := {
  feed_title : option string;
  entries : list entry
}.

(** The dictionary appended to [new_entries]. *)
Record article := {
  title : string;
  link : string;
  date : datetime
}.

(** [session.get(url, timeout=20)]: a [requests.RequestException] (no
    connection, timeout, ...) or a response. *)
Inductive http_outcome :=
| RequestException
| Response (status_code : Z) (content : string).

(** [response.raise_for_status()] raises HTTPError for 4xx and 5xx. *)
Definition raise_for_status (status_code : Z) : bool :=
  ((400 <=? status_code) && (status_code <? 600))%Z.

(** [parser.parse(s)] of dateutil: it returns a datetime (naive or aware),
    raises [ParserError], or raises something else (dateutil documents
    [OverflowError] for a date beyond the largest C integer).  Only
    [ParserError] is caught next to the call. *)
Inductive parse_outcome :=
| Parsed (d : datetime)
| ParserError
| OtherError.

(** ** The result dictionary

    A Python dict keeps insertion order; assigning to a key that is present
    replaces the value where the key stands. *)
Fixpoint dict_set {V : Type} (k : string) (v : V) (d : list (string * V))
  : list (string * V) :=
  match d with
  | [] => [(k, v)]
  | (k', v') :: d' =>
      if decide (k = k') then (k, v) :: d' else (k', v') :: dict_set k v d'
  end.

Fixpoint dict_get {V : Type} (k : string) (d : list (string * V)) : option V :=
  match d with
  | [] => None
  | (k', v') :: d' => if decide (k = k') then Some v' else dict_get k d'
  end.

(** ** [list.sort(key=lambda x: x['date'], reverse=True)]

    Python's sort is stable, also with [reverse=True]: items with equal
    keys keep their order.  Inserting from the right, an item passes only
    the items that are strictly newer.  A stable sort has one possible
    result ([stable_sort_unique] below), so this is the list Python
    returns. *)
Fixpoint insert_newest_first (x : article) (l : list article) : list article :=
  match l with
  | [] => [x]
  | y :: l' =>
      if (instant (date x) <? instant (date y))%Z
      then y :: insert_newest_first x l'
      else x :: y :: l'
  end.

Definition sort_newest_first (l : list article) : list article :=
  foldr insert_newest_first [] l.

(** ** The aggregation pipeline *)

Record state := {
  new_articles_by_feed : list (string * list article);
  seen_urls : gset string;
  failed_feeds : list string
}.

(** What one pass of the inner loop body does. *)
Inductive entry_step :=
| Skip
| Accept (a : article)
| Raise.

(** The publication date of an entry: none (no date string, or one that
    dateutil refuses with ParserError), an exception that is not caught in
    the loop body, or an aware datetime. *)
Inductive date_outcome :=
| NoDate
| DateRaises
| PubDate (d : datetime).

Section Pipeline.

(** The world of one run. *)
Variable session_get : string → http_outcome.
Variable feedparser_parse : string → option parsed_feed.
Variable parser_parse : string → parse_outcome.

(** [entry.get('published', entry.get('updated'))] *)
Definition pub_date_str (e : entry) : option string :=
  match entry_published e with
  | Some s => Some s
  | None => entry_updated e
  end.

(** The date of an entry as the loop body gets it. *)
Definition entry_date (e : entry) : date_outcome :=
  let s := pub_date_str e in
  if py_not s then NoDate
  else match parser_parse (default EmptyString s) with
       | ParserError => NoDate
       | OtherError => DateRaises
       | Parsed pub_date =>
           PubDate (match utcoffset pub_date with
                    | None => replace_tzinfo_utc pub_date
                    | Some _ => pub_date
                    end)
       end.

(** The body of [for entry in feed.entries]. *)
Definition process_entry (cutoff_date : datetime) (seen : gset string)
    (e : entry) : entry_step :=
  let lnk := entry_link e in
  if py_not lnk || bool_decide (default EmptyString lnk ∈ seen) then Skip
  else match entry_date e with
       | NoDate => Skip
       | DateRaises => Raise
       | PubDate pub_date =>
           if datetime_ge pub_date cutoff_date
           then Accept {| title := default "No Title" (entry_title e);
                          link := default EmptyString lnk;
                          date := pub_date |}
           else Skip
       end.

(** The inner loop; [None] when an exception leaves it.  The links added
    before the exception stay in the set. *)
Fixpoint entries_loop (cutoff_date : datetime) (es : list entry)
    (new_entries : list article) (seen : gset string)
  : option (list article) * gset string :=
  match es with
  | [] => (Some new_entries, seen)
  | e :: es' =>
      match process_entry cutoff_date seen e with
      | Skip => entries_loop cutoff_date es' new_entries seen
      | Accept a =>
          entries_loop cutoff_date es' (new_entries ++ [a]) ({[link a]} ∪ seen)
      | Raise => (None, seen)
      end
  end.

(** Fetch and parse: [None] when either raises. *)
Definition fetch_feed (url : string) : option parsed_feed :=
  match session_get url with
  | RequestException => None
  | Response status_code content =>
      if raise_for_status status_code then None
      else feedparser_parse content
  end.

(** The body of [for url in feed_urls]. *)
Definition process_feed (cutoff_date : datetime) (st : state) (url : string)
  : state :=
  match fetch_feed url with
  | None =>
      {| new_articles_by_feed := new_articles_by_feed st;
         seen_urls := seen_urls st;
         failed_feeds := failed_feeds st ++ [url] |}
  | Some feed =>
      let feed_title := default "Untitled Feed" (feed_title feed) in
      match entries_loop cutoff_date (entries feed) [] (seen_urls st) with
      | (None, seen) =>
          {| new_articles_by_feed := new_articles_by_feed st;
             seen_urls := seen;
             failed_feeds := failed_feeds st ++ [url] |}
      | (Some [], seen) =>
          {| new_articles_by_feed := new_articles_by_feed st;
             seen_urls := seen;
             failed_feeds := failed_feeds st |}
      | (Some new_entries, seen) =>
          {| new_articles_by_feed :=
               dict_set feed_title (sort_newest_first new_entries)
                        (new_articles_by_feed st);
             seen_urls := seen;
             failed_feeds := failed_feeds st |}
      end
  end.

Definition feeds_loop (cutoff_date : datetime) (feed_urls : list string)
    (st : state) : state :=
  foldl (process_feed cutoff_date) st feed_urls.

(** [fetch_and_process_feeds]; [None] when the cutoff cannot be computed
    (the OverflowError leaves the function before the loop). *)
Definition fetch_and_process_feeds (now : Z) (feed_urls : list string)
    (seen : gset string) (article_age_days : Z) : option state :=
  match cutoff_of now article_age_days with
  | None => None
  | Some cutoff_date =>
      Some (feeds_loop cutoff_date feed_urls
              {| new_articles_by_feed := [];
                 seen_urls := seen;
                 failed_feeds := [] |})
  end.

End Pipeline.

(** [sum(len(articles) for articles in new_articles.values())] *)
Definition total_articles (d : list (string * list article)) : nat :=
  sum_list_with (λ kv, length (snd kv)) d.

(** ** The seen-set store *)

(** What [json.load(f)] does on an open file. *)
Inductive json_load_outcome :=
| RaisesOSError               (* reading fails *)
| RaisesUnicodeDecodeError    (* the bytes are not text in the file's encoding *)
| RaisesJSONDecodeError       (* the text is not a JSON document *)
| LoadsStrings (l : list string)  (* a JSON array of strings, as [save] writes it *)
| LoadsUnsettable.            (* null, a number, an array holding an array:
                                 [set(...)] raises TypeError *)

(** A path that exists: [open] fails, or the file can be read. *)
Inductive file_node :=
| Unopenable
| File (content : json_load_outcome).

(** The file system: a path that is not bound does not exist. *)
Abbreviation filesystem := (gmap string file_node).

(** [load_seen_articles]: the handler catches [json.JSONDecodeError] and
    [IOError] (that is [OSError]); [UnicodeDecodeError] and [TypeError] are
    subclasses of neither. *)
Definition load_seen_articles (fs : filesystem) (file_path : string)
  : py_result (gset string) :=
  match fs !! file_path with
  | None => Returns ∅
  | Some Unopenable => Returns ∅
  | Some (File RaisesOSError) => Returns ∅
  | Some (File RaisesJSONDecodeError) => Returns ∅
  | Some (File RaisesUnicodeDecodeError) => Raises UnicodeDecodeError
  | Some (File LoadsUnsettable) => Raises TypeError
  | Some (File (LoadsStrings l)) => Returns (list_to_set l)
  end.

(** [save_seen_articles]: [open(file_path, 'w')] then
    [json.dump(list(articles_to_save), f)]. *)
Definition save_seen_articles (articles_to_save : gset string)
    (fs : filesystem) (file_path : string) : py_result filesystem :=
  match fs !! file_path with
  | Some Unopenable => Raises OSError
  | _ =>
      Returns
        (<[file_path := File (LoadsStrings (elements articles_to_save))]> fs)
  end.

(** ** The digest

    [format_html_output] builds the document by appending to [html].  The
    two dates it prints come from [strftime], which is left to the world:
    the day of the run, already as text, and the short date of an article. *)

(** The double quote, for the markup. *)
Definition dq : string :=
  String (Ascii.Ascii false true false false false true false false) EmptyString.

(** The text before the first [html +=]. *)
Definition html_head : string :=
  "<!DOCTYPE html>
<html>
<head>
<style>
    body { 
        background-color: #f4f4f4; 
        font-family: -apple-system, BlinkMacSystemFont, "
  +:+ dq +:+ "Segoe UI"
  +:+ dq +:+ ", Roboto, Helvetica, Arial, sans-serif; 
        line-height: 1.6; 
        color: #333; 
        margin: 0; 
        padding: 20px;
    }
    .container { 
        max-width: 800px; 
        margin: 0 auto; 
        padding: 30px; 
        border-radius: 12px; 
        background-color: #ffffff; 
        box-shadow: 0 4px 12px rgba(0,0,0,0.08); 
    }
    h1 { 
        color: #1a1a1a; 
        font-size: 26px; 
        border-bottom: 2px solid #eee; 
        padding-bottom: 10px; 
        margin-top: 0;
    }
    h2 { 
        color: #333; 
        font-size: 20px; 
        border-bottom: 1px solid #f0f0f0; 
        padding-bottom: 8px; 
        margin-top: 35px; 
    }
    ul { 
        list-style-type: none; 
        padding-left: 0; 
    }
    li { 
        margin-bottom: 12px; 
        padding: 10px 15px; 
        border-left: 3px solid #007BFF; 
        background-color: #f8f9fa;
        border-radius: 4px;
    }
    .article-date { 
        font-weight: 600; 
        color: #555; 
        margin-right: 8px; 
        font-size: 0.9em;
    }
    a { 
        color: #0056b3; 
        text-decoration: none; 
        font-weight: 500; 
    }
    a:hover { 
        text-decoration: underline; 
    }
    .failed-feeds { 
        margin-top: 40px; 
        padding: 15px; 
        background-color: #fbeaea; 
        border: 1px solid #f5c6cb; 
        border-radius: 8px; 
    }
    .failed-feeds h3 { 
        margin-top: 0; 
        color: #721c24; 
    }
    .summary { 
        background-color: #e7f3ff; 
        padding: 15px; 
        border-radius: 8px; 
        margin-bottom: 20px; 
    }
</style>
</head>
<body>
<div class="
  +:+ dq +:+ "container"
  +:+ dq +:+ ">
".

(** The text appended last. *)
Definition html_tail : string :=
  "
</div>
</body>
</html>
".

(** An f-string prints an integer in decimal. *)
Definition py_str_nat (n : nat) : string := pretty n.
Definition py_str_int (n : Z) : string := pretty n.

Section Digest.

(** [article['date'].strftime("%b %d")] *)
Variable strftime_b_d : datetime → string.

(** The f-string of an article *)
Definition article_item (a : article) : string :=
  "<li><span class=" +:+ dq +:+ "article-date" +:+ dq +:+ ">"
  +:+ strftime_b_d (date a)
  +:+ "</span><a href=" +:+ dq +:+ link a +:+ dq
  +:+ " target=" +:+ dq +:+ "_blank" +:+ dq +:+ ">"
  +:+ title a +:+ "</a></li>".

(** The f-string that opens the section of a feed *)
Definition feed_heading (feed_title : string) (articles : list article)
  : string :=
  "<h2>" +:+ feed_title +:+ " (" +:+ py_str_nat (length articles)
  +:+ " articles)</h2><ul>".

(** The f-string of a failed feed *)
Definition failed_item (url : string) : string := "<li>" +:+ url +:+ "</li>".

(** The two summaries *)
Definition no_articles_summary (article_age_days : Z) : string :=
  "<div class=" +:+ dq +:+ "summary" +:+ dq
  +:+ "><p>No new articles found from the last "
  +:+ py_str_int article_age_days +:+ " days.</p></div>".

Definition articles_summary (new_articles : list (string * list article))
    (article_age_days : Z) : string :=
  "<div class=" +:+ dq +:+ "summary" +:+ dq +:+ "><p><strong>"
  +:+ py_str_nat (total_articles new_articles)
  +:+ "</strong> new articles from <strong>"
  +:+ py_str_nat (length new_articles)
  +:+ "</strong> sources in the last "
  +:+ py_str_int article_age_days +:+ " days.</p></div>".

(** [html += ...] in the three loops *)
Definition add_article (html : string) (a : article) : string :=
  html +:+ article_item a.

Definition add_feed (html : string) (kv : string * list article) : string :=
  let html := html +:+ feed_heading (fst kv) (snd kv) in
  let html := foldl add_article html (snd kv) in
  html +:+ "</ul>".

Definition add_failed (html : string) (url : string) : string :=
  html +:+ failed_item url.

(** [format_html_output]; [current_date] is
    [datetime.now().strftime("%A, %B %d, %Y")]. *)
Definition format_html_output (current_date : string)
    (new_articles : list (string * list article))
    (failed_feeds : list string) (article_age_days : Z) : string :=
  let html := html_head in
  let html := html +:+ ("<h1>RSS Digest - " +:+ current_date +:+ "</h1>") in
  let html :=
    match new_articles with
    | [] => html +:+ no_articles_summary article_age_days
    | _ :: _ =>
        let html := html +:+ articles_summary new_articles article_age_days in
        foldl add_feed html new_articles
    end in
  let html :=
    match failed_feeds with
    | [] => html
    | _ :: _ =>
        let html := html +:+ ("<div class=" +:+ dq +:+ "failed-feeds" +:+ dq
                              +:+ ">") in
        let html := html +:+ ("<h3>Failed to Fetch ("
                              +:+ py_str_nat (length failed_feeds)
                              +:+ " feeds)</h3>") in
        let html :=
          html +:+ "<p>The following feeds could not be processed:</p><ul>" in
        let html := foldl add_failed html failed_feeds in
        html +:+ "</ul></div>"
    end in
  html +:+ html_tail.

End Digest.

(** ** The configuration and [main] *)

(** The configuration document: a JSON object whose keys may be absent
    (indexing then raises KeyError).  The values are taken to have the
    types the script expects: a list of URLs, an integer, a path. *)
Record settings := {
  settings_article_age_days : option Z;
  settings_seen_articles_file : option string
}.

Record config := {
  config_feeds : option (list string);
  config_settings : option settings
}.

(** What is at the path of a configuration file. *)
Inductive config_file :=
| ConfigMissing          (* [os.path.exists] is False *)
| ConfigUnloadable       (* [open] or [json.load] raises *)
| ConfigNotObject        (* a JSON document that is not an object *)
| ConfigObject (c : config).

(** What [json.load] returns for a configuration file. *)
Inductive config_value :=
| NotObject
| Object (c : config).

(** The exceptions that reach the handler of [main]. *)
Inductive main_error :=
| FileNotFoundError (message : string)
| ConfigLoadError
| ConfigTypeError
| KeyError (key : string)
| CutoffOverflowError
| SeenStoreError (e : exception).

(** [load_config] *)
Definition load_config (config_at : string → config_file)
    (config_file : string) : main_error + config_value :=
  match config_at config_file with
  | ConfigMissing =>
      inl (FileNotFoundError
             ("Configuration file " +:+ config_file +:+ " not found"))
  | ConfigUnloadable => inl ConfigLoadError
  | ConfigNotObject => inr NotObject
  | ConfigObject c => inr (Object c)
  end.

(** The world [main] runs in. *)
Record world := {
  w_config_at : string → config_file;
  w_files : filesystem;
  w_now : Z;                               (* [datetime.now(timezone.utc)] *)
  w_today : string;          (* [datetime.now().strftime("%A, %B %d, %Y")] *)
  w_session_get : string → http_outcome;
  w_feedparser_parse : string → option parsed_feed;
  w_parser_parse : string → parse_outcome;
  w_strftime_b_d : datetime → string
}.

(** A line on the diagnostic stream: [f"Error: {e}"] or the summary. *)
Inductive log_line :=
| ErrorLine (e : main_error)
| TextLine (s : string).

(** What a run of the script leaves: the exit status, what was printed on
    each stream, and the files. *)
Record main_outcome := {
  exit_status : Z;
  stdout : list string;
  stderr : list log_line;
  files_after : filesystem
}.

(** The handler of [main]: the message, then [sys.exit(1)]. *)
Definition main_fails (e : main_error) (fs : filesystem) : main_outcome :=
  {| exit_status := 1; stdout := []; stderr := [ErrorLine e];
     files_after := fs |}.

(** [main] *)
Definition main (w : world) : main_outcome :=
  match load_config (w_config_at w) "rss_sources.json" with
  | inl e => main_fails e (w_files w)
  | inr NotObject => main_fails ConfigTypeError (w_files w)
  | inr (Object config) =>
  match config_feeds config with
  | None => main_fails (KeyError "feeds") (w_files w)
  | Some feed_urls =>
  match config_settings config with
  | None => main_fails (KeyError "settings") (w_files w)
  | Some settings =>
  match settings_article_age_days settings with
  | None => main_fails (KeyError "article_age_days") (w_files w)
  | Some article_age_days =>
  match settings_seen_articles_file settings with
  | None => main_fails (KeyError "seen_articles_file") (w_files w)
  | Some seen_articles_file =>
  match load_seen_articles (w_files w) seen_articles_file with
  | Raises e => main_fails (SeenStoreError e) (w_files w)
  | Returns seen_article_urls =>
  match fetch_and_process_feeds (w_session_get w) (w_feedparser_parse w)
          (w_parser_parse w) (w_now w) feed_urls seen_article_urls
          article_age_days with
  | None => main_fails CutoffOverflowError (w_files w)
  | Some st =>
      let html_output :=
        format_html_output (w_strftime_b_d w) (w_today w)
          (new_articles_by_feed st) (failed_feeds st) article_age_days in
      match save_seen_articles (seen_urls st) (w_files w)
              seen_articles_file with
      | Raises e => main_fails (SeenStoreError e) (w_files w)
      | Returns fs =>
          {| exit_status := 0;
             stdout := [html_output];
             stderr :=
               [TextLine
                  ("Processed " +:+ py_str_nat (length feed_urls)
                   +:+ " feeds, found "
                   +:+ py_str_nat (total_articles (new_articles_by_feed st))
                   +:+ " new articles")];
             files_after := fs |}
      end
  end end end end end end
  end.

(** ** Vocabulary of the statements *)

(** [a] is not older than [b]: the order of a feed's list in the result. *)
Definition not_older (a b : article) : Prop :=
  (instant (date b) ≤ instant (date a))%Z.

(** The articles of a list published at the instant [k]. *)
Definition published_at (k : Z) (l : list article) : list article :=
  filter (λ a, instant (date a) = k) l.

(** The article the loop body builds from an entry that nothing hides. *)
Definition entry_article (parser_parse : string → parse_outcome)
    (cutoff_date : datetime) (e : entry) : option article :=
  match process_entry parser_parse cutoff_date ∅ e with
  | Accept a => Some a
  | _ => None
  end.

(** Every link of the result dictionary, in order. *)
Definition all_links (d : list (string * list article)) : list string :=
  concat (map (λ kv, map link (snd kv)) d).

(** The four rules by which the loop body drops an entry: no link, a link
    already seen, no date (absent, or refused with ParserError), or a date
    before the cutoff. *)
Definition skip_rule (parser_parse : string → parse_outcome)
    (cutoff_date : datetime) (seen : gset string) (e : entry) : Prop :=
  py_not (entry_link e) = true
  ∨ default EmptyString (entry_link e) ∈ seen
  ∨ entry_date parser_parse e = NoDate
  ∨ ∃ d, entry_date parser_parse e = PubDate d
         ∧ (instant d < instant cutoff_date)%Z.

(** The links shown are links of the set, none of them from before the
    run, and none shown twice. *)
Definition links_fresh (seen0 : gset string) (st : state) : Prop :=
  seen0 ⊆ seen_urls st
  ∧ (∀ l, l ∈ all_links (new_articles_by_feed st) →
          l ∈ seen_urls st ∧ l ∉ seen0)
  ∧ NoDup (all_links (new_articles_by_feed st)).

(** A state with another list of failures. *)
Definition with_failed (f : list string) (st : state) : state :=
  {| new_articles_by_feed := new_articles_by_feed st;
     seen_urls := seen_urls st;
     failed_feeds := f |}.

(** [needle] occurs in [hay]. *)
Definition occurs_in (needle hay : string) : Prop :=
  ∃ before after, hay = before +:+ needle +:+ after.

(** The texts of the items of a list, one after the other. *)
Definition concat_map {A} (f : A → string) (l : list A) : string :=
  foldr (λ x s, f x +:+ s) EmptyString l.

(** The section of a feed in the digest: the heading, the items of its
    articles in the order of the list, and the end of the list. *)
Definition feed_section (strftime_b_d : datetime → string)
    (kv : string * list article) : string :=
  feed_heading (fst kv) (snd kv)
  +:+ concat_map (article_item strftime_b_d) (snd kv) +:+ "</ul>".

(** The summary of the digest. *)
Definition digest_summary (new_articles : list (string * list article))
    (article_age_days : Z) : string :=
  match new_articles with
  | [] => no_articles_summary article_age_days
  | _ :: _ => articles_summary new_articles article_age_days
  end.

(** The panel of the failed feeds; nothing when there is none. *)
Definition failure_panel (failed_feeds : list string) : string :=
  match failed_feeds with
  | [] => EmptyString
  | _ :: _ =>
      "<div class=" +:+ dq +:+ "failed-feeds" +:+ dq +:+ ">"
      +:+ "<h3>Failed to Fetch (" +:+ py_str_nat (length failed_feeds)
      +:+ " feeds)</h3>"
      +:+ "<p>The following feeds could not be processed:</p><ul>"
      +:+ concat_map failed_item failed_feeds +:+ "</ul></div>"
  end.



(** ** A small world to run the pipeline in

    Feeds that answer, one that answers 500, and no answer at any other
    address; dates are named by what they are relative to a cutoff of three
    days after the epoch. *)
Definition day : Z := 86400000000%Z.

Definition demo_parser_parse (s : string) : parse_outcome :=
  if decide (s = "newest") then Parsed {| wall := 9 * day; utcoffset := Some 0%Z |}
  else if decide (s = "new") then Parsed {| wall := 8 * day; utcoffset := None |}
  else if decide (s = "new+1h") then
    Parsed {| wall := 8 * day + 3600000000; utcoffset := Some 3600000000%Z |}
  else if decide (s = "cutoff") then Parsed {| wall := 3 * day; utcoffset := None |}
  else if decide (s = "old") then
    Parsed {| wall := 3 * day - 1; utcoffset := None |}
  else if decide (s = "huge") then OtherError
  else ParserError.

Definition demo_entry (l d : string) : entry :=
  {| entry_link := Some l; entry_published := Some d;
     entry_updated := None; entry_title := None |}.

Definition demo_feedparser_parse (content : string) : option parsed_feed :=
  if decide (content = "A") then
    Some {| feed_title := Some "Alpha";
            entries := [demo_entry "x" "new"; demo_entry "w" "old";
                        demo_entry "z" "newest"; demo_entry "v" "new+1h";
                        demo_entry "u" "garbled"] |}
  else if decide (content = "B") then
    Some {| feed_title := Some "Beta";
            entries := [demo_entry "x" "newest"; demo_entry "y" "cutoff"] |}
  else if decide (content = "C") then
    Some {| feed_title := None;
            entries := [demo_entry "p" "huge"; demo_entry "q" "new"] |}
  else if decide (content = "D") then
    Some {| feed_title := None; entries := [demo_entry "p" "new"] |}
  else if decide (content = "E") then
    Some {| feed_title := Some "Untitled Feed";
            entries := [demo_entry "r" "newest"] |}
  else if decide (content = "G") then
    Some {| feed_title := Some "Gamma"; entries := [demo_entry "w" "new"] |}
  else if decide (content = "F") then
    Some {| feed_title := Some "Phi";
            entries := [demo_entry "w" "old"; demo_entry "p" "huge";
                        demo_entry "q" "new"] |}
  else None.

Definition demo_session_get (url : string) : http_outcome :=
  if decide (url = "http://a") then Response 200 "A"
  else if decide (url = "http://b") then Response 200 "B"
  else if decide (url = "http://c") then Response 200 "C"
  else if decide (url = "http://d") then Response 200 "D"
  else if decide (url = "http://e") then Response 200 "E"
  else if decide (url = "http://f") then Response 200 "F"
  else if decide (url = "http://g") then Response 200 "G"
  else if decide (url = "http://down") then Response 500 "A"
  else RequestException.

Definition demo_now : Z := (10 * day)%Z.

Definition demo_cutoff : datetime := {| wall := 3 * day; utcoffset := Some 0%Z |}.

Definition demo_state (seen : gset string) : state :=
  {| new_articles_by_feed := []; seen_urls := seen; failed_feeds := [] |}.

Definition demo_run (feed_urls : list string) (seen : gset string) : option state :=
  fetch_and_process_feeds demo_session_get demo_feedparser_parse
    demo_parser_parse demo_now feed_urls seen 7.

(** January 1970, for the dates of the small world. *)
Definition demo_strftime_b_d (d : datetime) : string :=
  if (wall d `div` day <? 9)%Z
  then "Jan 0" +:+ pretty (wall d `div` day + 1)%Z
  else "Jan " +:+ pretty (wall d `div` day + 1)%Z.

Definition demo_config (feed_urls : list string) : config_file :=
  ConfigObject
    {| config_feeds := Some feed_urls;
       config_settings :=
         Some {| settings_article_age_days := Some 7%Z;
                 settings_seen_articles_file := Some "seen_articles.json" |} |}.

Definition demo_world (cf : config_file) (fs : filesystem) : world :=
  {| w_config_at := λ _, cf;
     w_files := fs;
     w_now := demo_now;
     w_today := "Sunday, January 11, 1970";
     w_session_get := demo_session_get;
     w_feedparser_parse := demo_feedparser_parse;
     w_parser_parse := demo_parser_parse;
     w_strftime_b_d := demo_strftime_b_d |}.

(** * Facts *)

(** ** The stable sort *)

Lemma insert_newest_first_perm x l : insert_newest_first x l ≡ₚ x :: l.
Proof.
  induction l as [|y l IH]; simpl; [done|].
  case_match; [|done].
  rewrite IH. apply Permutation_swap.
Qed.

Lemma sort_newest_first_perm l : sort_newest_first l ≡ₚ l.
Proof.
  induction l as [|x l IH]; simpl; [done|].
  rewrite insert_newest_first_perm. by rewrite IH.
Qed.

Lemma insert_newest_first_sorted x l :
  StronglySorted not_older l → StronglySorted not_older (insert_newest_first x l).
Proof.
  induction 1 as [|y l Hl IH Hy]; simpl.
  - repeat constructor.
  - destruct (Z.ltb_spec (instant (date x)) (instant (date y))) as [Hlt|Hge].
    + constructor; [done|].
      rewrite insert_newest_first_perm. constructor; [|done].
      unfold not_older. lia.
    + constructor; [by constructor|].
      constructor; [unfold not_older; lia|].
      eapply Forall_impl; [exact Hy|].
      unfold not_older. intros z Hz. lia.
Qed.

Lemma sort_newest_first_sorted l : StronglySorted not_older (sort_newest_first l).
Proof.
  induction l as [|x l IH]; simpl; [constructor|].
  by apply insert_newest_first_sorted.
Qed.

(** Among the articles of one instant, the inserted one comes first when it
    is of that instant, and is invisible otherwise. *)
Lemma published_at_insert k x l :
  StronglySorted not_older l →
  published_at k (insert_newest_first x l) = published_at k (x :: l).
Proof.
  unfold published_at.
  induction 1 as [|y l Hl IH Hy]; [done|]. simpl.
  destruct (Z.ltb_spec (instant (date x)) (instant (date y))) as [Hlt|Hge]; [|done].
  rewrite filter_cons, IH, !filter_cons.
  destruct (decide (instant (date y) = k)) as [Hyk|Hyk];
    destruct (decide (instant (date x) = k)) as [Hxk|Hxk]; try done.
  lia.
Qed.

Lemma sort_newest_first_stable k l :
  published_at k (sort_newest_first l) = published_at k l.
Proof.
  induction l as [|x l IH]; [done|]. simpl.
  rewrite published_at_insert by apply sort_newest_first_sorted.
  unfold published_at in *. by rewrite !filter_cons, IH.
Qed.

(** The result of a stable sort is determined: two lists in non-increasing
    order that agree, instant by instant, on the articles and their order
    are one list.  So any stable sort, whatever its algorithm, returns what
    [sort_newest_first] returns. *)
Lemma newest_first_determined l1 l2 :
  StronglySorted not_older l1 → StronglySorted not_older l2 →
  (∀ k, published_at k l1 = published_at k l2) → l1 = l2.
Proof.
  assert (∀ a l, StronglySorted not_older (a :: l) →
            ∀ k, (instant (date a) < k)%Z → published_at k (a :: l) = [])
    as Hnone.
  { intros a l Hs k Hk. apply StronglySorted_inv in Hs as [_ Hall].
    unfold published_at. rewrite filter_cons, decide_False by lia.
    induction Hall as [|b l' Hb _ IHl]; [done|].
    unfold not_older in Hb. rewrite filter_cons, decide_False by lia.
    apply IHl. }
  assert (∀ a l, published_at (instant (date a)) (a :: l)
                 = a :: published_at (instant (date a)) l) as Hhead.
  { intros a l. unfold published_at. by rewrite filter_cons, decide_True. }
  intros H1. revert l2. induction H1 as [|a l1 Hl1 IH Ha]; intros l2 H2 Heq.
  - destruct l2 as [|b l2]; [done|].
    specialize (Heq (instant (date b))). by rewrite Hhead in Heq.
  - destruct l2 as [|b l2].
    { specialize (Heq (instant (date a))). by rewrite Hhead in Heq. }
    assert (StronglySorted not_older (a :: l1)) as H1 by by constructor.
    destruct (Z.lt_trichotomy (instant (date a)) (instant (date b)))
      as [Hlt|[Hk|Hgt]].
    + specialize (Heq (instant (date b))).
      by rewrite (Hnone _ _ H1 _ Hlt), Hhead in Heq.
    + pose proof (Heq (instant (date a))) as Hab.
      rewrite Hhead, Hk, Hhead in Hab. injection Hab as -> Htl.
      f_equal. apply IH; [by apply StronglySorted_inv in H2 as [? _]|].
      intros k. destruct (decide (instant (date b) = k)) as [<-|Hne]; [done|].
      specialize (Heq k). unfold published_at in *.
      by rewrite !filter_cons, !decide_False in Heq.
    + specialize (Heq (instant (date a))).
      by rewrite (Hnone _ _ H2 _ Hgt), Hhead in Heq.
Qed.

Lemma stable_sort_unique l l' :
  StronglySorted not_older l' →
  (∀ k, published_at k l' = published_at k l) →
  l' = sort_newest_first l.
Proof.
  intros Hs Hst. apply newest_first_determined; [done| |].
  - apply sort_newest_first_sorted.
  - intros k. by rewrite sort_newest_first_stable.
Qed.

Lemma sort_newest_first_nil l : sort_newest_first l = [] → l = [].
Proof.
  intros H. apply Permutation_nil_r. rewrite <- H.
  by rewrite sort_newest_first_perm.
Qed.

(** ** The result dictionary *)

Lemma dict_set_elem {V} k (v : V) d kv :
  kv ∈ dict_set k v d → kv = (k, v) ∨ kv ∈ d.
Proof.
  induction d as [|[k' v'] d IH]; simpl.
  - intros ->%list_elem_of_singleton. by left.
  - case_decide; rewrite !elem_of_cons; [tauto|].
    intros [->|H']; [by right; left|].
    destruct (IH H') as [->|?]; [by left|by right; right].
Qed.

Lemma dict_get_set_eq {V} k (v : V) d : dict_get k (dict_set k v d) = Some v.
Proof.
  induction d as [|[k' v'] d IH]; simpl.
  - by rewrite decide_True.
  - case_decide; simpl; [by rewrite decide_True|by rewrite decide_False].
Qed.

Lemma dict_get_elem {V} k (v : V) d : dict_get k d = Some v → (k, v) ∈ d.
Proof.
  induction d as [|[k' v'] d IH]; simpl; [done|].
  case_decide; [intros [= ->]; subst; left|right; auto].
Qed.

(** Assignment either appends a new key or swaps one value in place. *)
Lemma dict_set_split {V} k (v : V) d :
  (dict_get k d = None ∧ dict_set k v d = d ++ [(k, v)])
  ∨ ∃ d1 old d2, dict_get k d = Some old
                 ∧ d = d1 ++ (k, old) :: d2
                 ∧ dict_set k v d = d1 ++ (k, v) :: d2.
Proof.
  induction d as [|[k' v'] d IH]; simpl; [by left|].
  case_decide as Hk.
  - subst. right. by exists [], v', d.
  - destruct IH as [[Hn Hs]|(d1 & old & d2 & Hg & Hd & Hs)].
    + left. by rewrite Hs.
    + right. exists ((k', v') :: d1), old, d2.
      rewrite Hs. split; [done|]. split; [|done]. simpl. by rewrite <- Hd.
Qed.

Lemma all_links_app d1 d2 : all_links (d1 ++ d2) = all_links d1 ++ all_links d2.
Proof. unfold all_links. by rewrite map_app, concat_app. Qed.

Lemma all_links_cons k v d : all_links ((k, v) :: d) = map link v ++ all_links d.
Proof. done. Qed.

Lemma elem_of_all_links l d :
  l ∈ all_links d ↔ ∃ t arts a, (t, arts) ∈ d ∧ a ∈ arts ∧ link a = l.
Proof.
  induction d as [|[k v] d IH].
  - split; [by intros ?%elem_of_nil|]. by intros (? & ? & ? & ?%elem_of_nil & _).
  - rewrite all_links_cons, elem_of_app, IH. split.
    + intros [Hl|(t & arts & a & Hd & Ha & Hl)].
      * apply list_elem_of_fmap in Hl as (a & -> & Ha).
        exists k, v, a. split; [left|done].
      * exists t, arts, a. split; [by right|done].
    + intros (t & arts & a & Hd & Ha & <-).
      apply elem_of_cons in Hd as [[= -> ->]|Hd].
      * left. apply list_elem_of_fmap. by exists a.
      * right. by exists t, arts, a.
Qed.

Lemma total_articles_app d1 d2 :
  total_articles (d1 ++ d2) = total_articles d1 + total_articles d2.
Proof. apply sum_list_with_app. Qed.

(** ** The loop over the entries of one feed *)

Section EntryFacts.

Variable parser_parse : string → parse_outcome.
Variable cutoff_date : datetime.

Local Abbreviation body := (process_entry parser_parse cutoff_date).
Local Abbreviation inner := (entries_loop parser_parse cutoff_date).

(** An accepted entry had a link that was not seen, and a date not
    before the cutoff; what is built does not depend on the set. *)
Lemma process_entry_accept seen e a :
  body seen e = Accept a →
  (link a ∉ seen) ∧ entry_link e = Some (link a)
  ∧ entry_article parser_parse cutoff_date e = Some a
  ∧ (instant cutoff_date ≤ instant (date a))%Z.
Proof.
  unfold entry_article, process_entry.
  destruct (entry_link e) as [[|c lnk]|] eqn:Hl; simpl; try done.
  case_bool_decide as Hin; simpl; [done|].
  rewrite bool_decide_eq_false_2 by apply not_elem_of_empty. simpl.
  destruct (entry_date parser_parse e) as [| |d]; [done..|].
  unfold datetime_ge.
  destruct (Z.leb_spec (instant cutoff_date) (instant d)); [|done].
  by intros [= <-].
Qed.

(** The loop body skips exactly by the four rules. *)
Lemma process_entry_skip seen e :
  body seen e = Skip ↔ skip_rule parser_parse cutoff_date seen e.
Proof.
  unfold skip_rule, process_entry.
  destruct (py_not (entry_link e)) eqn:Hn; simpl; [by split; [left|]|].
  case_bool_decide as Hin; simpl; [by split; [right; left|]|].
  destruct (entry_date parser_parse e) as [| |d] eqn:Hd.
  - split; [|done]. intros _. by right; right; left.
  - split; [done|]. intros [?|[?|[[=]|(d & [=] & _)]]]; done.
  - unfold datetime_ge.
    destruct (Z.leb_spec (instant cutoff_date) (instant d)).
    + split; [done|]. intros [?|[?|[[=]|(d' & [= <-] & ?)]]]; try done. lia.
    + split; [|done]. intros _. right; right; right. by exists d.
Qed.



(** The list collected so far is only ever extended. *)
Lemma entries_loop_acc es acc seen :
  inner es acc seen
  = (app acc <$> (inner es [] seen).1, (inner es [] seen).2).
Proof.
  revert acc seen. induction es as [|e es IH]; intros acc seen; simpl.
  - by rewrite app_nil_r.
  - destruct (body seen e) as [|a|]; [apply IH| |done].
    rewrite (IH (acc ++ [a])), (IH [a]). simpl.
    destruct (inner es [] _).1; simpl; [|done]. by rewrite <- app_assoc.
Qed.

Lemma entries_loop_mono es acc seen : seen ⊆ (inner es acc seen).2.
Proof.
  revert acc seen. induction es as [|e es IH]; intros acc seen; simpl; [done|].
  destruct (body seen e) as [|a|]; [apply IH| |done].
  etrans; [|apply IH]. set_solver.
Qed.

(** Going further through the entries only adds to the set. *)
Lemma entries_loop_prefix_mono es1 es2 acc seen :
  (inner es1 acc seen).2 ⊆ (inner (es1 ++ es2) acc seen).2.
Proof.
  revert acc seen. induction es1 as [|e es1 IH]; intros acc seen; simpl.
  - apply entries_loop_mono.
  - destruct (body seen e) as [|a|]; [apply IH|apply IH|done].
Qed.

(** What a pass without exception has collected. *)
Lemma entries_loop_some es seen arts seen' :
  inner es [] seen = (Some arts, seen') →
  seen' = list_to_set (map link arts) ∪ seen
  ∧ NoDup (map link arts)
  ∧ (∀ a, a ∈ arts → link a ∉ seen)
  ∧ sublist arts (omap (entry_article parser_parse cutoff_date) es).
Proof.
  revert seen arts seen'.
  induction es as [|e es IH]; intros seen arts seen'; simpl.
  - intros [= <- <-]. split; [set_solver|]. split; [constructor|].
    split; [by intros ? ?%elem_of_nil|constructor].
  - destruct (body seen e) as [|a|] eqn:He; [| |done].
    + intros H. destruct (IH _ _ _ H) as (-> & Hnd & Hnot & Hsub).
      repeat split; try done.
      destruct (entry_article _ _ e); [by apply sublist_cons|done].
    + rewrite entries_loop_acc.
      destruct (inner es [] ({[link a]} ∪ seen)) as [[arts'|] s] eqn:Hrec;
        simpl; [|done].
      intros [= <- <-].
      destruct (IH _ _ _ Hrec) as (-> & Hnd & Hnot & Hsub).
      apply process_entry_accept in He as (Hfresh & _ & -> & _).
      simpl. repeat split.
      * set_solver.
      * constructor; [|done]. intros Hin.
        apply list_elem_of_fmap in Hin as (b & Hb & Hin).
        apply Hnot in Hin. set_solver.
      * intros b [->|Hb]%elem_of_cons; [done|].
        apply Hnot in Hb. set_solver.
      * by apply sublist_skip.
Qed.

(** Where a link of the set comes from, exception or not. *)
Lemma entries_loop_origin es acc seen l :
  l ∈ (inner es acc seen).2 →
  l ∈ seen ∨ ∃ e a, e ∈ es ∧ entry_link e = Some l
                    ∧ entry_article parser_parse cutoff_date e = Some a.
Proof.
  revert acc seen. induction es as [|e es IH]; intros acc seen; simpl; [by left|].
  destruct (body seen e) as [|a|] eqn:He; [| |by left].
  - intros [?|(e' & a & ? & ? & ?)]%IH; [by left|].
    right. exists e', a. by rewrite elem_of_cons; auto.
  - apply process_entry_accept in He as (_ & Hl & Ha & _).
    intros [[?%elem_of_singleton|?]%elem_of_union|(e' & a' & ? & ? & ?)]%IH.
    + subst. right. exists e, a. split; [left|done].
    + by left.
    + right. exists e', a'. by rewrite elem_of_cons; auto.
Qed.


(** When every entry is skipped, the pass changes nothing. *)
Lemma entries_loop_all_skipped es acc seen :
  (∀ e, e ∈ es → body seen e = Skip) → inner es acc seen = (Some acc, seen).
Proof.
  induction es as [|e es IH]; simpl; [done|]. intros H.
  rewrite (H e) by left. apply IH. intros e' He'. apply H. by right.
Qed.

End EntryFacts.

(** ** The loop over the feeds *)

Lemma dict_set_links k v d :
  ∃ rest, all_links (dict_set k v d) ≡ₚ map link v ++ rest
          ∧ rest ⊆+ all_links d.
Proof.
  destruct (dict_set_split k v d) as [[_ ->]|(d1 & old & d2 & _ & -> & ->)].
  - exists (all_links d). split; [|done].
    rewrite all_links_app, all_links_cons. simpl.
    rewrite app_nil_r. apply Permutation_app_comm.
  - exists (all_links d1 ++ all_links d2). split.
    + rewrite all_links_app, all_links_cons.
      by rewrite Permutation_app_swap_app.
    + rewrite all_links_app, all_links_cons.
      apply submseteq_app; [done|]. apply submseteq_inserts_l. done.
Qed.

Section FeedFacts.

Variable session_get : string → http_outcome.
Variable feedparser_parse : string → option parsed_feed.
Variable parser_parse : string → parse_outcome.
Variable cutoff_date : datetime.

Local Abbreviation fetch := (fetch_feed session_get feedparser_parse).
Local Abbreviation inner := (entries_loop parser_parse cutoff_date).
Local Abbreviation step :=
  (process_feed session_get feedparser_parse parser_parse cutoff_date).
Local Abbreviation outer :=
  (feeds_loop session_get feedparser_parse parser_parse cutoff_date).

(** A feed that cannot be fetched or parsed only adds its URL to the
    failures. *)
Lemma process_feed_failure st url :
  fetch url = None →
  step st url = {| new_articles_by_feed := new_articles_by_feed st;
                   seen_urls := seen_urls st;
                   failed_feeds := failed_feeds st ++ [url] |}.
Proof. unfold process_feed. by intros ->. Qed.

(** The dictionary after one feed: untouched, or assigned at the feed's
    title the sorted list of what the feed's entries gave. *)
Lemma process_feed_out st url :
  seen_urls st ⊆ seen_urls (step st url)
  ∧ (new_articles_by_feed (step st url) = new_articles_by_feed st
     ∨ ∃ feed arts,
         fetch url = Some feed
         ∧ inner (entries feed) [] (seen_urls st)
           = (Some arts, seen_urls (step st url))
         ∧ arts ≠ []
         ∧ failed_feeds (step st url) = failed_feeds st
         ∧ new_articles_by_feed (step st url)
           = dict_set (default "Untitled Feed" (feed_title feed))
                      (sort_newest_first arts) (new_articles_by_feed st)).
Proof.
  unfold process_feed. destruct (fetch url) as [feed|]; [|by split; [|left]].
  pose proof (entries_loop_mono parser_parse cutoff_date (entries feed) []
                (seen_urls st)) as Hm.
  destruct (inner (entries feed) [] (seen_urls st)) as [[[|a arts]|] seen']
    eqn:Hloop; simpl in Hm; simpl; (split; [done|]); [by left| |by left].
  right. by exists feed, (a :: arts).
Qed.

Lemma feeds_loop_app us1 us2 st : outer (us1 ++ us2) st = outer us2 (outer us1 st).
Proof. apply foldl_app. Qed.

(** An invariant of the loop body, for the URLs of the list, is an
    invariant of the loop. *)
Lemma feeds_loop_invariant (P : state → Prop) feed_urls :
  (∀ st url, url ∈ feed_urls → P st → P (step st url)) →
  ∀ st, P st → P (outer feed_urls st).
Proof.
  intros Hstep.
  assert (∀ us, us ⊆ feed_urls → ∀ st, P st → P (outer us st)) as H.
  { induction us as [|u us IH]; intros Hsub st Hst; simpl; [done|].
    apply IH; [set_solver|]. apply Hstep; [set_solver|done]. }
  by apply H.
Qed.

Lemma feeds_loop_mono feed_urls st :
  seen_urls st ⊆ seen_urls (outer feed_urls st).
Proof.
  revert st. induction feed_urls as [|u us IH]; intros st; simpl; [done|].
  etrans; [|apply IH]. apply process_feed_out.
Qed.

Lemma process_feed_links_fresh seen0 st url :
  links_fresh seen0 st → links_fresh seen0 (step st url).
Proof.
  intros (Hsub & Hin & Hnd).
  destruct (process_feed_out st url)
    as [Hm [Heq|(feed & arts & _ & Hl & _ & _ & Hd)]].
  - unfold links_fresh. rewrite Heq. split; [set_solver|]. split; [|done].
    intros l Hl. destruct (Hin l Hl). split; [set_solver|done].
  - apply entries_loop_some in Hl as (Hs & Hnd' & Hfresh & _).
    destruct (dict_set_links (default "Untitled Feed" (feed_title feed))
                (sort_newest_first arts) (new_articles_by_feed st))
      as (rest & Hp & Hrest).
    assert (∀ l, l ∈ map link (sort_newest_first arts) ↔ l ∈ map link arts)
      as Hsort.
    { intros l. by rewrite sort_newest_first_perm. }
    assert (∀ l, l ∈ map link arts → l ∉ seen_urls st) as Hfresh'.
    { intros l (a & -> & Ha)%list_elem_of_fmap. by apply Hfresh. }
    unfold links_fresh. rewrite Hd. split; [set_solver|]. split.
    + intros l. rewrite Hp, elem_of_app, Hsort.
      intros [Hl|Hl].
      * split; [rewrite Hs; set_solver|]. apply Hfresh' in Hl. set_solver.
      * eapply elem_of_submseteq in Hl; [|exact Hrest].
        destruct (Hin l Hl). split; [set_solver|done].
    + rewrite Hp. apply NoDup_app. split; [|split].
      * by rewrite sort_newest_first_perm.
      * intros l Hl%Hsort%Hfresh' Hl'. apply Hl.
        eapply elem_of_submseteq in Hl'; [|exact Hrest]. by apply Hin.
      * apply submseteq_Permutation in Hrest as [more Hmore].
        rewrite Hmore in Hnd. by apply NoDup_app in Hnd as [? _].
Qed.

Lemma feeds_loop_links_fresh seen0 feed_urls st :
  links_fresh seen0 st → links_fresh seen0 (outer feed_urls st).
Proof.
  apply feeds_loop_invariant. intros ? ? _. apply process_feed_links_fresh.
Qed.

(** A link that is in the set is never shown by a feed processed later. *)
Lemma feeds_loop_taken feed_urls st1 :
  ∀ t arts a,
    (t, arts) ∈ new_articles_by_feed (outer feed_urls st1) → a ∈ arts →
    link a ∈ seen_urls st1 → (t, arts) ∈ new_articles_by_feed st1.
Proof.
  set (P := λ st, seen_urls st1 ⊆ seen_urls st ∧
    ∀ t arts a, (t, arts) ∈ new_articles_by_feed st → a ∈ arts →
      link a ∈ seen_urls st1 → (t, arts) ∈ new_articles_by_feed st1).
  assert (P (outer feed_urls st1)) as [_ H]; [|done].
  apply feeds_loop_invariant; [|by split].
  intros st url _ [Hsub Hst].
  destruct (process_feed_out st url)
    as [Hm [Heq|(feed & arts & _ & Hl & _ & _ & Hd)]].
  - split; [set_solver|]. by rewrite Heq.
  - split; [set_solver|]. rewrite Hd. intros t arts' a Hin Ha Hseen.
    apply dict_set_elem in Hin as [[= -> ->]|Hin]; [|by eapply Hst].
    apply entries_loop_some in Hl as (_ & _ & Hfresh & _).
    rewrite sort_newest_first_perm in Ha. apply Hfresh in Ha. set_solver.
Qed.

(** The set after one feed is the set after the feed's entries. *)
Lemma process_feed_seen st url :
  seen_urls (step st url)
  = match fetch url with
    | None => seen_urls st
    | Some feed => (inner (entries feed) [] (seen_urls st)).2
    end.
Proof.
  unfold process_feed. destruct (fetch url) as [feed|]; [|done].
  by destruct (inner (entries feed) [] (seen_urls st)) as [[[|a arts]|] seen'].
Qed.

(** A link of the set was there before, or is the link of an entry of one
    of the feeds that qualifies by its date. *)
Lemma feeds_loop_origin feed_urls st l :
  l ∈ seen_urls (outer feed_urls st) →
  l ∈ seen_urls st
  ∨ ∃ url feed e a, url ∈ feed_urls ∧ fetch url = Some feed
                    ∧ e ∈ entries feed ∧ entry_link e = Some l
                    ∧ entry_article parser_parse cutoff_date e = Some a.
Proof.
  revert st. induction feed_urls as [|u us IH]; intros st; simpl; [by left|].
  intros [Hl|(url & feed & e & a & ? & ?)]%IH.
  - rewrite process_feed_seen in Hl.
    destruct (fetch u) as [feed|] eqn:Hf; [|by left].
    apply entries_loop_origin in Hl as [?|(e & a & ? & ? & ?)]; [by left|].
    right. exists u, feed, e, a. split; [left|done].
  - right. exists url, feed, e, a. split; [by right|done].
Qed.

(** The failures recorded so far play no part in what follows. *)
Lemma process_feed_frame f st url :
  step (with_failed (f ++ failed_feeds st) st) url
  = with_failed (f ++ failed_feeds (step st url)) (step st url).
Proof.
  unfold process_feed, with_failed. simpl.
  destruct (fetch url) as [feed|]; simpl; [|by rewrite app_assoc].
  destruct (inner (entries feed) [] (seen_urls st)) as [[[|a arts]|] seen'];
    simpl; by rewrite ?app_assoc.
Qed.

Lemma feeds_loop_frame f feed_urls st :
  outer feed_urls (with_failed (f ++ failed_feeds st) st)
  = with_failed (f ++ failed_feeds (outer feed_urls st)) (outer feed_urls st).
Proof.
  revert st. induction feed_urls as [|u us IH]; intros st; simpl; [done|].
  by rewrite process_feed_frame, IH.
Qed.

(** The failures only grow, at the end. *)
Lemma feeds_loop_failed feed_urls st :
  ∃ rest, failed_feeds (outer feed_urls st) = failed_feeds st ++ rest.
Proof.
  revert st. induction feed_urls as [|u us IH]; intros st; simpl.
  - exists []. by rewrite app_nil_r.
  - destruct (IH (step st u)) as [rest ->].
    assert (∃ r, failed_feeds (step st u) = failed_feeds st ++ r) as [r ->].
    { unfold process_feed. destruct (fetch u) as [feed|]; simpl; [|by eexists].
      destruct (inner _ _ _) as [[[|a arts]|] seen']; simpl;
        [exists []| exists []|by eexists]; by rewrite app_nil_r. }
    exists (r ++ rest). by rewrite app_assoc.
Qed.

End FeedFacts.

(** * The claims *)

Section Claims.

Variable session_get : string → http_outcome.
Variable feedparser_parse : string → option parsed_feed.
Variable parser_parse : string → parse_outcome.

(** The run over a list of feeds goes through the run over any of its
    beginnings. *)
Lemma run_prefix now pre post seen0 days st :
  fetch_and_process_feeds session_get feedparser_parse parser_parse
    now (pre ++ post) seen0 days = Some st →
  ∃ cutoff_date st1,
    cutoff_of now days = Some cutoff_date
    ∧ fetch_and_process_feeds session_get feedparser_parse parser_parse
        now pre seen0 days = Some st1
    ∧ st = feeds_loop session_get feedparser_parse parser_parse
             cutoff_date post st1.
Proof.
  unfold fetch_and_process_feeds.
  destruct (cutoff_of now days) as [c|]; [|done].
  intros [= <-]. eexists c, _. split; [done|]. split; [done|].
  apply feeds_loop_app.
Qed.

Lemma run_links_fresh now feed_urls seen0 days st :
  fetch_and_process_feeds session_get feedparser_parse parser_parse
    now feed_urls seen0 days = Some st → links_fresh seen0 st.
Proof.
  unfold fetch_and_process_feeds.
  destruct (cutoff_of now days) as [c|]; [|done]. intros [= <-].
  apply feeds_loop_links_fresh. split; [done|].
  split; [by intros ? ?%elem_of_nil|constructor].
Qed.

(** C1 (dedup), with the earliest feed to accept the link.  In the result
    of a run, no article has a link that was in the seen set when the run
    started; no link is shown twice, be it under two feeds or under one;
    and a link that is already in the set when the later feeds [post]
    start (some earlier feed accepted it) is shown only where the earlier
    feeds [pre] put it. *)
Theorem dedup_within_run now pre post seen0 days st1 st :
  fetch_and_process_feeds session_get feedparser_parse parser_parse
    now pre seen0 days = Some st1 →
  fetch_and_process_feeds session_get feedparser_parse parser_parse
    now (pre ++ post) seen0 days = Some st →
  (∀ t arts a, (t, arts) ∈ new_articles_by_feed st → a ∈ arts →
               link a ∉ seen0)
  ∧ NoDup (all_links (new_articles_by_feed st))
  ∧ (∀ t arts a, (t, arts) ∈ new_articles_by_feed st → a ∈ arts →
                 link a ∈ seen_urls st1 →
                 (t, arts) ∈ new_articles_by_feed st1).
Proof.
  intros H1 H. pose proof (run_links_fresh _ _ _ _ _ H) as (_ & Hin & Hnd).
  apply run_prefix in H as (c & st1' & _ & H1' & ->).
  rewrite H1 in H1'. injection H1' as <-.
  split; [|split; [done|]].
  - intros t arts a Hd Ha. apply (Hin (link a)).
    apply elem_of_all_links. by exists t, arts, a.
  - apply feeds_loop_taken.
Qed.

Lemma run_unfold now feed_urls seen0 days cutoff_date :
  cutoff_of now days = Some cutoff_date →
  fetch_and_process_feeds session_get feedparser_parse parser_parse
    now feed_urls seen0 days
  = Some (feeds_loop session_get feedparser_parse parser_parse cutoff_date
            feed_urls {| new_articles_by_feed := []; seen_urls := seen0;
                         failed_feeds := [] |}).
Proof. intros Hc. unfold fetch_and_process_feeds. by rewrite Hc. Qed.

Lemma cutoff_of_instant now days cutoff_date :
  cutoff_of now days = Some cutoff_date →
  instant cutoff_date = (now - days * 86400000000)%Z.
Proof.
  unfold cutoff_of, timedelta_days.
  destruct (Z.abs days <=? 999999999)%Z; [|done]. simpl.
  destruct (_ && _); [|done]. intros [= <-]. unfold instant. simpl. lia.
Qed.

(** The loop body on an entry with a fresh link and a date. *)
Lemma process_entry_dated cutoff_date seen e l d :
  entry_link e = Some l → l ≠ EmptyString → l ∉ seen →
  entry_date parser_parse e = PubDate d →
  process_entry parser_parse cutoff_date seen e
  = if datetime_ge d cutoff_date
    then Accept {| title := default "No Title" (entry_title e);
                   link := l; date := d |}
    else Skip.
Proof.
  intros Hl Hne Hfresh Hd. unfold process_entry. rewrite Hl, Hd. simpl.
  destruct l; [done|]. simpl. by rewrite bool_decide_eq_false_2.
Qed.

Lemma entry_article_date cutoff_date e a :
  entry_article parser_parse cutoff_date e = Some a →
  entry_date parser_parse e = PubDate (date a)
  ∧ (instant cutoff_date ≤ instant (date a))%Z.
Proof.
  unfold entry_article, process_entry.
  destruct (_ || _); [done|].
  destruct (entry_date parser_parse e) as [| |d]; [done..|].
  unfold datetime_ge.
  destruct (Z.leb_spec (instant cutoff_date) (instant d)); [|done].
  by intros [= <-].
Qed.

(** C2 (recency).  The cutoff is the clock minus the age in days, taken
    once for the run: every feed is processed against the same
    [cutoff_date].  An entry with a fresh link and a date is taken when
    its date is the cutoff itself: its article is appended and its link
    joins the set.  When its date is before the cutoff the loop goes on
    with the list and the set as they were.  And over a run, a link all
    of whose entries are dated before the cutoff is neither in the set
    that the run returns nor in the result, unless it was seen before. *)
Theorem recency_boundary now days cutoff_date :
  cutoff_of now days = Some cutoff_date →
  instant cutoff_date = (now - days * 86400000000)%Z
  ∧ (∀ feed_urls seen0,
       fetch_and_process_feeds session_get feedparser_parse parser_parse
         now feed_urls seen0 days
       = Some (feeds_loop session_get feedparser_parse parser_parse
                 cutoff_date feed_urls
                 {| new_articles_by_feed := []; seen_urls := seen0;
                    failed_feeds := [] |}))
  ∧ (∀ es acc seen e l d,
       entry_link e = Some l → l ≠ EmptyString → l ∉ seen →
       entry_date parser_parse e = PubDate d →
       (instant d = instant cutoff_date →
        entries_loop parser_parse cutoff_date (e :: es) acc seen
        = entries_loop parser_parse cutoff_date es
            (acc ++ [{| title := default "No Title" (entry_title e);
                        link := l; date := d |}])
            ({[l]} ∪ seen))
       ∧ ((instant d < instant cutoff_date)%Z →
          entries_loop parser_parse cutoff_date (e :: es) acc seen
          = entries_loop parser_parse cutoff_date es acc seen))
  ∧ (∀ feed_urls seen0 st l,
       fetch_and_process_feeds session_get feedparser_parse parser_parse
         now feed_urls seen0 days = Some st → l ∉ seen0 →
       (∀ url feed e,
          url ∈ feed_urls →
          fetch_feed session_get feedparser_parse url = Some feed →
          e ∈ entries feed → entry_link e = Some l →
          ∃ d, entry_date parser_parse e = PubDate d
               ∧ (instant d < instant cutoff_date)%Z) →
       (l ∉ seen_urls st) ∧ (l ∉ all_links (new_articles_by_feed st))).
Proof.
  intros Hc. split; [by apply cutoff_of_instant|].
  split; [intros; by apply run_unfold|]. split.
  - intros es acc seen e l d Hl Hne Hfresh Hd. simpl.
    rewrite (process_entry_dated _ _ _ _ _ Hl Hne Hfresh Hd).
    unfold datetime_ge. split; intros Hi.
    + by rewrite Hi, Z.leb_refl.
    + destruct (Z.leb_spec (instant cutoff_date) (instant d)); [lia|done].
  - intros feed_urls seen0 st l Hrun Hfresh Hold.
    assert (l ∉ seen_urls st) as Hnot.
    { rewrite (run_unfold _ _ _ _ _ Hc) in Hrun. injection Hrun as <-.
      intros [?|(url & feed & e & a & Hu & Hf & He & Hl & Ha)]%feeds_loop_origin;
        [done|].
      destruct (Hold _ _ _ Hu Hf He Hl) as (d & Hd & Hlt).
      apply entry_article_date in Ha as [Hd' Hge].
      rewrite Hd in Hd'. injection Hd' as ->. lia. }
    split; [done|]. intros Hin.
    apply run_links_fresh in Hrun as (_ & Hall & _).
    by apply Hall in Hin as [? _].
Qed.

Lemma fetch_feed_none url :
  fetch_feed session_get feedparser_parse url = None ↔
  session_get url = RequestException
  ∨ ∃ status_code content,
      session_get url = Response status_code content
      ∧ ((400 ≤ status_code < 600)%Z ∨ feedparser_parse content = None).
Proof.
  unfold fetch_feed, raise_for_status.
  destruct (session_get url) as [|status_code content]; [by split; [left|]|].
  destruct (Z.leb_spec 400 status_code), (Z.ltb_spec status_code 600); simpl.
  - split; [|done]. intros _. right. exists status_code, content.
    split; [done|]. left. lia.
  - split.
    + intros H'. right. exists status_code, content. by split; [|right].
    + intros [[=]|(? & ? & [= <- <-] & [?|?])]; [lia|done].
  - split.
    + intros H'. right. exists status_code, content. by split; [|right].
    + intros [[=]|(? & ? & [= <- <-] & [?|?])]; [lia|done].
  - split.
    + intros H'. right. exists status_code, content. by split; [|right].
    + intros [[=]|(? & ? & [= <- <-] & [?|?])]; [lia|done].
Qed.

(** C3 (failure isolation).  Take a feed that cannot be fetched (no
    answer, or a 4xx or 5xx status) or whose document feedparser cannot
    parse.  The run over a list that holds it returns, with the result
    and the seen set of the run over the list without it, and with the
    same failures plus, at its place, the URL of that feed. *)
Theorem failure_isolation now pre url post seen0 days st' :
  session_get url = RequestException
  ∨ (∃ status_code content,
       session_get url = Response status_code content
       ∧ ((400 ≤ status_code < 600)%Z ∨ feedparser_parse content = None)) →
  fetch_and_process_feeds session_get feedparser_parse parser_parse
    now (pre ++ post) seen0 days = Some st' →
  ∃ st_pre rest,
    fetch_and_process_feeds session_get feedparser_parse parser_parse
      now pre seen0 days = Some st_pre
    ∧ failed_feeds st' = failed_feeds st_pre ++ rest
    ∧ fetch_and_process_feeds session_get feedparser_parse parser_parse
        now (pre ++ url :: post) seen0 days
      = Some {| new_articles_by_feed := new_articles_by_feed st';
                seen_urls := seen_urls st';
                failed_feeds := failed_feeds st_pre ++ url :: rest |}.
Proof.
  intros Hfail%fetch_feed_none Hrun.
  destruct (run_prefix _ _ _ _ _ _ Hrun) as (c & st1 & Hc & Hpre & ->).
  destruct (feeds_loop_failed session_get feedparser_parse parser_parse c
              post st1) as [rest Hrest].
  exists st1, rest. split; [done|]. split; [done|].
  rewrite (run_unfold _ _ _ _ _ Hc), feeds_loop_app. simpl.
  rewrite (run_unfold _ _ _ _ _ Hc) in Hpre. injection Hpre as ->.
  rewrite process_feed_failure by done.
  pose proof (feeds_loop_frame session_get feedparser_parse parser_parse c
                (failed_feeds st1 ++ [url]) post
                (with_failed [] st1)) as Hframe.
  pose proof (feeds_loop_frame session_get feedparser_parse parser_parse c
                (failed_feeds st1) post (with_failed [] st1)) as Hframe1.
  unfold with_failed in Hframe, Hframe1 at 1 2. simpl in Hframe, Hframe1.
  rewrite !app_nil_r in *.
  assert ({| new_articles_by_feed := new_articles_by_feed st1;
             seen_urls := seen_urls st1;
             failed_feeds := failed_feeds st1 |} = st1) as Heta
    by by destruct st1.
  rewrite Heta in Hframe1. rewrite Hframe. rewrite Hframe1 in Hrest |- *.
  unfold with_failed in *. simpl in *.
  apply app_inv_head in Hrest. rewrite Hrest.
  by rewrite <- app_assoc.
Qed.

(** A date that dateutil refuses with ParserError, like a date that is
    absent, makes the loop body skip the entry. *)
Lemma unparseable_date_skipped cutoff_date seen e :
  py_not (pub_date_str e) = true
  ∨ parser_parse (default EmptyString (pub_date_str e)) = ParserError →
  process_entry parser_parse cutoff_date seen e = Skip.
Proof.
  intros H. apply process_entry_skip. right; right; left.
  unfold entry_date. destruct (py_not (pub_date_str e)); [done|].
  destruct H as [?|H]; [done|]. by rewrite H.
Qed.

(** C5 (date errors), where the code departs from it.  When dateutil
    raises something that is not ParserError on the date of an entry
    with a fresh link, the exception leaves the loop over the entries:
    the feed is recorded as failed although its document parsed, nothing
    of it reaches the result, and the entries after that one are never
    looked at. *)
Theorem date_error_fails_feed cutoff_date st url feed es1 e es2 :
  fetch_feed session_get feedparser_parse url = Some feed →
  entries feed = es1 ++ e :: es2 →
  (∀ e', e' ∈ es1 →
         process_entry parser_parse cutoff_date (seen_urls st) e' = Skip) →
  py_not (entry_link e) = false →
  default EmptyString (entry_link e) ∉ seen_urls st →
  py_not (pub_date_str e) = false →
  parser_parse (default EmptyString (pub_date_str e)) = OtherError →
  process_feed session_get feedparser_parse parser_parse cutoff_date st url
  = {| new_articles_by_feed := new_articles_by_feed st;
       seen_urls := seen_urls st;
       failed_feeds := failed_feeds st ++ [url] |}.
Proof.
  intros Hf Hes Hskip Hl Hfresh Hs Hp. unfold process_feed. rewrite Hf, Hes.
  assert (entries_loop parser_parse cutoff_date (es1 ++ e :: es2) []
            (seen_urls st) = (None, seen_urls st)) as ->; [|done].
  clear Hes. generalize (@nil article) as acc. revert Hskip.
  induction es1 as [|e1 es1 IH]; intros Hskip acc; simpl.
  - unfold process_entry, entry_date. rewrite Hl, Hs, Hp. simpl.
    by rewrite bool_decide_eq_false_2.
  - rewrite Hskip by left. apply IH. intros e' He'. apply Hskip. by right.
Qed.

(** Each list of the result is the sorted list of what the loop over the
    entries of one of the feeds collected. *)
Lemma feeds_loop_lists cutoff_date feed_urls st0 :
  new_articles_by_feed st0 = [] →
  ∀ t arts,
    (t, arts) ∈ new_articles_by_feed
                  (feeds_loop session_get feedparser_parse parser_parse
                     cutoff_date feed_urls st0) →
    ∃ url feed new_entries,
      url ∈ feed_urls
      ∧ fetch_feed session_get feedparser_parse url = Some feed
      ∧ t = default "Untitled Feed" (feed_title feed)
      ∧ sublist new_entries
          (omap (entry_article parser_parse cutoff_date) (entries feed))
      ∧ arts = sort_newest_first new_entries.
Proof.
  intros Hnil.
  apply (feeds_loop_invariant session_get feedparser_parse parser_parse
           cutoff_date
           (λ st, ∀ t arts, (t, arts) ∈ new_articles_by_feed st →
              ∃ url feed new_entries,
                url ∈ feed_urls
                ∧ fetch_feed session_get feedparser_parse url = Some feed
                ∧ t = default "Untitled Feed" (feed_title feed)
                ∧ sublist new_entries
                    (omap (entry_article parser_parse cutoff_date)
                          (entries feed))
                ∧ arts = sort_newest_first new_entries)).
  - intros st url Hurl Hst t arts.
    destruct (process_feed_out session_get feedparser_parse parser_parse
                cutoff_date st url)
      as [_ [->|(feed & new_entries & Hf & Hl & _ & _ & ->)]]; [apply Hst|].
    intros [[= -> ->]|Hin]%dict_set_elem; [|by apply Hst].
    apply entries_loop_some in Hl as (_ & _ & _ & Hsub).
    by exists url, feed, new_entries.
  - rewrite Hnil. by intros ? ? ?%elem_of_nil.
Qed.

(** C6 (order).  Each list of the result is in non-increasing order of
    publication.  It is the list collected from the entries of one of
    the feeds, which follows the order of the entries, rearranged; and
    the articles of one same instant stand in it in the order in which
    they were collected. *)
Theorem output_newest_first now feed_urls seen0 days st t arts :
  fetch_and_process_feeds session_get feedparser_parse parser_parse
    now feed_urls seen0 days = Some st →
  (t, arts) ∈ new_articles_by_feed st →
  StronglySorted not_older arts
  ∧ ∃ cutoff_date url feed new_entries,
      cutoff_of now days = Some cutoff_date
      ∧ url ∈ feed_urls
      ∧ fetch_feed session_get feedparser_parse url = Some feed
      ∧ t = default "Untitled Feed" (feed_title feed)
      ∧ sublist new_entries
          (omap (entry_article parser_parse cutoff_date) (entries feed))
      ∧ arts ≡ₚ new_entries
      ∧ ∀ k, published_at k arts = published_at k new_entries.
Proof.
  intros Hrun Hin.
  destruct (run_prefix now feed_urls [] seen0 days st) as (c & st1 & Hc & _).
  { by rewrite app_nil_r. }
  rewrite (run_unfold _ _ _ _ _ Hc) in Hrun. injection Hrun as <-.
  apply feeds_loop_lists in Hin
    as (url & feed & new_entries & Hu & Hf & Ht & Hsub & ->); [|done].
  split; [apply sort_newest_first_sorted|].
  exists c, url, feed, new_entries. repeat (split; [done|]).
  split; [apply sort_newest_first_perm|]. intros k.
  apply sort_newest_first_stable.
Qed.

(** C7 (nothing qualifies).  When a feed is fetched and parsed and each
    of its entries falls under a skip rule, processing it leaves the
    state as it was: nothing under its title, nothing among the failures,
    and the run goes on as if the feed were not in the list. *)
Theorem silent_when_nothing_qualifies cutoff_date st url feed :
  fetch_feed session_get feedparser_parse url = Some feed →
  (∀ e, e ∈ entries feed →
        skip_rule parser_parse cutoff_date (seen_urls st) e) →
  process_feed session_get feedparser_parse parser_parse cutoff_date st url
  = st
  ∧ ∀ pre post st0,
      st = feeds_loop session_get feedparser_parse parser_parse cutoff_date
             pre st0 →
      feeds_loop session_get feedparser_parse parser_parse cutoff_date
        (pre ++ url :: post) st0
      = feeds_loop session_get feedparser_parse parser_parse cutoff_date
          (pre ++ post) st0.
Proof.
  intros Hf Hskip.
  assert (process_feed session_get feedparser_parse parser_parse cutoff_date
            st url = st) as Hstep.
  { unfold process_feed. rewrite Hf.
    rewrite entries_loop_all_skipped; [by destruct st|].
    intros e He. by apply process_entry_skip, Hskip. }
  split; [done|]. intros pre post st0 Hst.
  rewrite !feeds_loop_app. simpl. by rewrite <- Hst, Hstep.
Qed.

(** C9 (the set grows).  The set that a run returns contains the set it
    was given.  So does the set after any beginning of the list of feeds,
    which in turn is contained in the set after a longer beginning; and
    within a feed, the set after some of the entries is contained in the
    set after more of them, exception or not. *)
Theorem seen_set_grows now feed_urls seen0 days st :
  fetch_and_process_feeds session_get feedparser_parse parser_parse
    now feed_urls seen0 days = Some st →
  seen0 ⊆ seen_urls st
  ∧ (∀ pre post,
       feed_urls = pre ++ post →
       ∃ st1, fetch_and_process_feeds session_get feedparser_parse parser_parse
                now pre seen0 days = Some st1
              ∧ seen0 ⊆ seen_urls st1 ∧ seen_urls st1 ⊆ seen_urls st)
  ∧ (∀ cutoff_date es1 es2 acc seen,
       seen ⊆ (entries_loop parser_parse cutoff_date es1 acc seen).2
       ∧ (entries_loop parser_parse cutoff_date es1 acc seen).2
         ⊆ (entries_loop parser_parse cutoff_date (es1 ++ es2) acc seen).2).
Proof.
  intros Hrun.
  assert (∀ us s0 s,
            fetch_and_process_feeds session_get feedparser_parse parser_parse
              now us s0 days = Some s →
            s0 ⊆ seen_urls s) as Hall.
  { intros us s0 s H. by apply run_links_fresh in H as [? _]. }
  split; [by eapply Hall|]. split.
  - intros pre post ->.
    destruct (run_prefix _ _ _ _ _ _ Hrun) as (c & st1 & _ & Hpre & ->).
    exists st1. split; [done|]. split; [by eapply Hall|].
    apply feeds_loop_mono.
  - intros c es1 es2 acc seen.
    split; [apply entries_loop_mono|apply entries_loop_prefix_mono].
Qed.

(** C10 (one title, two feeds).  When the feeds processed so far have
    left a list under a title, and the next feed has the same title (be
    it the placeholder) and collects new articles, its sorted list takes
    the place of the other one: the keys of the result stay as they were,
    the count of articles loses the old list and gains the new one, and
    the articles of the old list are no longer in the result although
    their links are in the seen set. *)
Theorem same_title_replaces now pre url seen0 days cutoff_date st1 feed old
    new_entries seen' :
  cutoff_of now days = Some cutoff_date →
  fetch_and_process_feeds session_get feedparser_parse parser_parse
    now pre seen0 days = Some st1 →
  fetch_feed session_get feedparser_parse url = Some feed →
  dict_get (default "Untitled Feed" (feed_title feed))
           (new_articles_by_feed st1) = Some old →
  entries_loop parser_parse cutoff_date (entries feed) [] (seen_urls st1)
  = (Some new_entries, seen') →
  new_entries ≠ [] →
  ∃ st,
    fetch_and_process_feeds session_get feedparser_parse parser_parse
      now (pre ++ [url]) seen0 days = Some st
    ∧ dict_get (default "Untitled Feed" (feed_title feed))
               (new_articles_by_feed st)
      = Some (sort_newest_first new_entries)
    ∧ map fst (new_articles_by_feed st) = map fst (new_articles_by_feed st1)
    ∧ total_articles (new_articles_by_feed st) + length old
      = total_articles (new_articles_by_feed st1) + length new_entries
    ∧ ∀ a, a ∈ old →
           link a ∈ seen_urls st
           ∧ link a ∉ all_links (new_articles_by_feed st).
Proof.
  intros Hc Hpre Hf Hold Hloop Hne.
  pose proof (run_links_fresh _ _ _ _ _ Hpre) as (_ & Hin & Hnd).
  rewrite (run_unfold _ _ _ _ _ Hc) in Hpre. injection Hpre as Hpre.
  exists {| new_articles_by_feed :=
              dict_set (default "Untitled Feed" (feed_title feed))
                (sort_newest_first new_entries) (new_articles_by_feed st1);
            seen_urls := seen';
            failed_feeds := failed_feeds st1 |}.
  split.
  { rewrite (run_unfold _ _ _ _ _ Hc), feeds_loop_app, Hpre. simpl.
    unfold process_feed. rewrite Hf, Hloop.
    by destruct new_entries as [|b bs]. }
  simpl. set (t := default "Untitled Feed" (feed_title feed)) in *.
  split; [apply dict_get_set_eq|].
  destruct (dict_set_split t (sort_newest_first new_entries)
              (new_articles_by_feed st1))
    as [[Hnone _]|(d1 & old' & d2 & Hsome & Hd & Hset)]; [congruence|].
  rewrite Hold in Hsome. injection Hsome as <-.
  rewrite Hset. rewrite Hd in Hin, Hnd |- *. clear Hset Hd.
  apply entries_loop_some in Hloop as (-> & _ & Hfresh & _).
  split; [by rewrite !map_app|]. split.
  { rewrite !total_articles_app. unfold total_articles. simpl.
    rewrite (Permutation_length (sort_newest_first_perm new_entries)). lia. }
  intros a Ha.
  assert (link a ∈ map link old) as Hla by by apply list_elem_of_fmap_2.
  assert (link a ∈ seen_urls st1) as Hseen.
  { apply Hin. rewrite all_links_app, all_links_cons, !elem_of_app. auto. }
  split; [set_solver|].
  rewrite all_links_app, all_links_cons in Hnd |- *.
  apply NoDup_app in Hnd as (_ & Hd1 & Hnd).
  apply NoDup_app in Hnd as (_ & Hd2 & _).
  rewrite !elem_of_app. intros [H1|[Hnew|H2]].
  - apply Hd1 in H1. apply H1. rewrite elem_of_app. by left.
  - rewrite sort_newest_first_perm in Hnew.
    apply list_elem_of_fmap in Hnew as (b & Hb & Hnew).
    apply Hfresh in Hnew. congruence.
  - by apply Hd2 in Hla.
Qed.

(** ** Two runs in a row *)






End Claims.

(** ** The seen-set store *)

(** A file that is missing, cannot be opened or read, or does not hold a
    JSON document stands for an empty set. *)
Lemma load_seen_articles_degrades fs file_path :
  fs !! file_path = None
  ∨ fs !! file_path = Some Unopenable
  ∨ fs !! file_path = Some (File RaisesOSError)
  ∨ fs !! file_path = Some (File RaisesJSONDecodeError) →
  load_seen_articles fs file_path = Returns ∅.
Proof.
  unfold load_seen_articles. by intros [-> | [-> | [-> | ->]]].
Qed.

(** What [save_seen_articles] writes, [load_seen_articles] reads back. *)
Lemma load_after_save seen fs fs' file_path :
  save_seen_articles seen fs file_path = Returns fs' →
  load_seen_articles fs' file_path = Returns seen.
Proof.
  unfold save_seen_articles, load_seen_articles.
  destruct (fs !! file_path) as [[|c]|]; [done| |];
    intros [= <-]; by rewrite lookup_insert_eq, list_to_set_elements_L.
Qed.

(** C4 (loading never fails), where the code departs from it.  A file
    whose bytes are not text in the encoding of [open] does not hold valid
    structured data, and loading it raises: UnicodeDecodeError is neither
    a JSONDecodeError nor an IOError, so the handler lets it through. *)
Theorem load_seen_articles_raises :
  load_seen_articles {["seen_articles.json" := File RaisesUnicodeDecodeError]}
    "seen_articles.json"
  = Raises UnicodeDecodeError.
Proof. unfold load_seen_articles. by rewrite lookup_singleton_eq. Qed.

(** C8 (two runs in a row), where the code departs from it.  In the first
    run the feed at c fails on the date of its first entry, whose link p is
    then taken by the feed at d.  The set is saved and loaded.  In the
    second run, over the same contents, the feed at c skips p as seen,
    goes past it and finds q: the result is not empty. *)
Theorem second_run_finds_more :
  ∃ st1 fs st2,
    demo_run ["http://c"; "http://d"] ∅ = Some st1
    ∧ failed_feeds st1 = ["http://c"]
    ∧ save_seen_articles (seen_urls st1) ∅ "seen_articles.json" = Returns fs
    ∧ load_seen_articles fs "seen_articles.json" = Returns (seen_urls st1)
    ∧ demo_run ["http://c"; "http://d"] (seen_urls st1) = Some st2
    ∧ map fst (new_articles_by_feed st2) = ["Untitled Feed"]
    ∧ all_links (new_articles_by_feed st2) = ["q"].
Proof.
  eexists _, _, _. split; [reflexivity|]. split; [reflexivity|].
  split; [reflexivity|]. split; [by apply (load_after_save _ ∅)|].
  split; [reflexivity|]. split; vm_compute; reflexivity.
Qed.

(** C1, as worded with the earliest feed to come upon the link.  The feed
    at a comes upon the link w first, in an entry dated before the cutoff,
    and skips it without adding it to the set; the feed at g, later in the
    list, has w in an entry of a recent date and shows it. *)
Lemma dedup_first_to_encounter_fails :
  ∃ st feed_a feed_g shown_a shown_g,
    demo_run ["http://a"; "http://g"] ∅ = Some st
    ∧ fetch_feed demo_session_get demo_feedparser_parse "http://a" = Some feed_a
    ∧ fetch_feed demo_session_get demo_feedparser_parse "http://g" = Some feed_g
    ∧ Some "w" ∈ map entry_link (entries feed_a)
    ∧ Some "w" ∈ map entry_link (entries feed_g)
    ∧ dict_get (default "Untitled Feed" (feed_title feed_a))
               (new_articles_by_feed st) = Some shown_a
    ∧ dict_get (default "Untitled Feed" (feed_title feed_g))
               (new_articles_by_feed st) = Some shown_g
    ∧ ("w" ∉ map link shown_a)
    ∧ ("w" ∈ map link shown_g).
Proof.
  eexists _, _, _, _, _. split; [reflexivity|]. split; [reflexivity|].
  split; [reflexivity|]. split; [simpl; by right; left|].
  split; [simpl; left|]. split; [reflexivity|]. split; [reflexivity|].
  split; [|simpl; left]. simpl.
  rewrite !elem_of_cons, elem_of_nil. intros [?|[?|[?|?]]]; done.
Qed.

(** * The claims at work in the small world *)

Lemma dedup_within_run_witness :
  ∃ st1 st,
    demo_run ["http://a"] {["w"]} = Some st1
    ∧ demo_run (["http://a"] ++ ["http://b"]) {["w"]} = Some st
    ∧ ((∀ t arts a, (t, arts) ∈ new_articles_by_feed st → a ∈ arts →
                    link a ∉ ({["w"]} : gset string))
       ∧ NoDup (all_links (new_articles_by_feed st))
       ∧ (∀ t arts a, (t, arts) ∈ new_articles_by_feed st → a ∈ arts →
                      link a ∈ seen_urls st1 →
                      (t, arts) ∈ new_articles_by_feed st1)).
Proof.
  eexists _, _. split; [reflexivity|]. split; [reflexivity|].
  apply (dedup_within_run demo_session_get demo_feedparser_parse
           demo_parser_parse demo_now ["http://a"] ["http://b"] {["w"]} 7);
    reflexivity.
Defined.

Lemma recency_boundary_witness :
  cutoff_of demo_now 7 = Some demo_cutoff
  ∧ (instant demo_cutoff = (demo_now - 7 * 86400000000)%Z
     ∧ (∀ feed_urls seen0,
          demo_run feed_urls seen0
          = Some (feeds_loop demo_session_get demo_feedparser_parse
                    demo_parser_parse demo_cutoff feed_urls
                    {| new_articles_by_feed := []; seen_urls := seen0;
                       failed_feeds := [] |}))
     ∧ (∀ es acc seen e l d,
          entry_link e = Some l → l ≠ EmptyString → l ∉ seen →
          entry_date demo_parser_parse e = PubDate d →
          (instant d = instant demo_cutoff →
           entries_loop demo_parser_parse demo_cutoff (e :: es) acc seen
           = entries_loop demo_parser_parse demo_cutoff es
               (acc ++ [{| title := default "No Title" (entry_title e);
                           link := l; date := d |}])
               ({[l]} ∪ seen))
          ∧ ((instant d < instant demo_cutoff)%Z →
             entries_loop demo_parser_parse demo_cutoff (e :: es) acc seen
             = entries_loop demo_parser_parse demo_cutoff es acc seen))
     ∧ (∀ feed_urls seen0 st l,
          demo_run feed_urls seen0 = Some st → l ∉ seen0 →
          (∀ url feed e,
             url ∈ feed_urls →
             fetch_feed demo_session_get demo_feedparser_parse url = Some feed →
             e ∈ entries feed → entry_link e = Some l →
             ∃ d, entry_date demo_parser_parse e = PubDate d
                  ∧ (instant d < instant demo_cutoff)%Z) →
          (l ∉ seen_urls st) ∧ (l ∉ all_links (new_articles_by_feed st)))).
Proof.
  split; [reflexivity|].
  apply (recency_boundary demo_session_get demo_feedparser_parse
           demo_parser_parse demo_now 7 demo_cutoff).
  reflexivity.
Defined.

Lemma failure_isolation_witness :
  ∃ st',
    (demo_session_get "http://down" = RequestException
     ∨ (∃ status_code content,
          demo_session_get "http://down" = Response status_code content
          ∧ ((400 ≤ status_code < 600)%Z
             ∨ demo_feedparser_parse content = None)))
    ∧ demo_run (["http://a"] ++ ["http://b"]) ∅ = Some st'
    ∧ ∃ st_pre rest,
        demo_run ["http://a"] ∅ = Some st_pre
        ∧ failed_feeds st' = failed_feeds st_pre ++ rest
        ∧ demo_run (["http://a"] ++ "http://down" :: ["http://b"]) ∅
          = Some {| new_articles_by_feed := new_articles_by_feed st';
                    seen_urls := seen_urls st';
                    failed_feeds := failed_feeds st_pre ++ "http://down" :: rest |}.
Proof.
  assert (demo_session_get "http://down" = RequestException
          ∨ (∃ status_code content,
               demo_session_get "http://down" = Response status_code content
               ∧ ((400 ≤ status_code < 600)%Z
                  ∨ demo_feedparser_parse content = None))) as Hdown.
  { right. exists 500%Z, "A". split; [reflexivity|]. left. lia. }
  eexists. split; [exact Hdown|]. split; [reflexivity|].
  apply (failure_isolation demo_session_get demo_feedparser_parse
           demo_parser_parse demo_now ["http://a"] "http://down" ["http://b"]
           ∅ 7 _ Hdown).
  reflexivity.
Defined.

Lemma date_error_fails_feed_witness :
  ∃ feed,
    fetch_feed demo_session_get demo_feedparser_parse "http://f" = Some feed
    ∧ entries feed
      = [demo_entry "w" "old"] ++ demo_entry "p" "huge" :: [demo_entry "q" "new"]
    ∧ (∀ e', e' ∈ [demo_entry "w" "old"] →
             process_entry demo_parser_parse demo_cutoff
               (seen_urls (demo_state ∅)) e' = Skip)
    ∧ py_not (entry_link (demo_entry "p" "huge")) = false
    ∧ (default EmptyString (entry_link (demo_entry "p" "huge"))
       ∉ seen_urls (demo_state ∅))
    ∧ py_not (pub_date_str (demo_entry "p" "huge")) = false
    ∧ demo_parser_parse
        (default EmptyString (pub_date_str (demo_entry "p" "huge")))
      = OtherError
    ∧ process_feed demo_session_get demo_feedparser_parse demo_parser_parse
        demo_cutoff (demo_state ∅) "http://f"
      = {| new_articles_by_feed := new_articles_by_feed (demo_state ∅);
           seen_urls := seen_urls (demo_state ∅);
           failed_feeds := failed_feeds (demo_state ∅) ++ ["http://f"] |}.
Proof.
  assert (∀ e', e' ∈ [demo_entry "w" "old"] →
                process_entry demo_parser_parse demo_cutoff
                  (seen_urls (demo_state ∅)) e' = Skip) as Hskip.
  { intros e' ->%list_elem_of_singleton. reflexivity. }
  assert (default EmptyString (entry_link (demo_entry "p" "huge"))
          ∉ seen_urls (demo_state ∅)) as Hfresh.
  { apply not_elem_of_empty. }
  eexists. split; [reflexivity|]. split; [reflexivity|].
  split; [exact Hskip|]. split; [reflexivity|]. split; [exact Hfresh|].
  split; [reflexivity|]. split; [reflexivity|].
  eapply (date_error_fails_feed demo_session_get demo_feedparser_parse
           demo_parser_parse demo_cutoff (demo_state ∅) "http://f" _
           [demo_entry "w" "old"] (demo_entry "p" "huge")
           [demo_entry "q" "new"]);
    [reflexivity|reflexivity|exact Hskip|reflexivity|exact Hfresh
    |reflexivity|reflexivity].
Defined.

Lemma output_newest_first_witness :
  ∃ st arts,
    demo_run ["http://a"] ∅ = Some st
    ∧ ("Alpha", arts) ∈ new_articles_by_feed st
    ∧ (StronglySorted not_older arts
       ∧ ∃ cutoff_date url feed new_entries,
           cutoff_of demo_now 7 = Some cutoff_date
           ∧ url ∈ ["http://a"]
           ∧ fetch_feed demo_session_get demo_feedparser_parse url = Some feed
           ∧ "Alpha" = default "Untitled Feed" (feed_title feed)
           ∧ sublist new_entries
               (omap (entry_article demo_parser_parse cutoff_date)
                     (entries feed))
           ∧ arts ≡ₚ new_entries
           ∧ ∀ k, published_at k arts = published_at k new_entries).
Proof.
  assert (∃ st arts, demo_run ["http://a"] ∅ = Some st
                     ∧ ("Alpha", arts) ∈ new_articles_by_feed st)
    as (st & arts & Hrun & Hin).
  { eexists _, _. split; [reflexivity|]. vm_compute. left. }
  exists st, arts. split; [exact Hrun|]. split; [exact Hin|].
  exact (output_newest_first demo_session_get demo_feedparser_parse
           demo_parser_parse demo_now ["http://a"] ∅ 7 st "Alpha" arts
           Hrun Hin).
Defined.

Lemma silent_when_nothing_qualifies_witness :
  ∃ feed,
    fetch_feed demo_session_get demo_feedparser_parse "http://d" = Some feed
    ∧ (∀ e, e ∈ entries feed →
            skip_rule demo_parser_parse demo_cutoff
              (seen_urls (demo_state {["p"]})) e)
    ∧ (process_feed demo_session_get demo_feedparser_parse demo_parser_parse
         demo_cutoff (demo_state {["p"]}) "http://d"
       = demo_state {["p"]}
       ∧ ∀ pre post st0,
           demo_state {["p"]}
           = feeds_loop demo_session_get demo_feedparser_parse
               demo_parser_parse demo_cutoff pre st0 →
           feeds_loop demo_session_get demo_feedparser_parse demo_parser_parse
             demo_cutoff (pre ++ "http://d" :: post) st0
           = feeds_loop demo_session_get demo_feedparser_parse
               demo_parser_parse demo_cutoff (pre ++ post) st0).
Proof.
  assert (∀ e, e ∈ [demo_entry "p" "new"] →
               skip_rule demo_parser_parse demo_cutoff
                 (seen_urls (demo_state {["p"]})) e) as Hskip.
  { intros e ->%list_elem_of_singleton. right; left.
    vm_compute. reflexivity. }
  eexists. split; [reflexivity|]. split; [exact Hskip|].
  apply (silent_when_nothing_qualifies demo_session_get demo_feedparser_parse
           demo_parser_parse demo_cutoff (demo_state {["p"]}) "http://d"
           {| feed_title := None; entries := [demo_entry "p" "new"] |});
    [reflexivity|exact Hskip].
Defined.

Lemma seen_set_grows_witness :
  ∃ st,
    demo_run ["http://a"; "http://b"] {["w"]} = Some st
    ∧ (({["w"]} : gset string) ⊆ seen_urls st
       ∧ (∀ pre post,
            ["http://a"; "http://b"] = pre ++ post →
            ∃ st1, demo_run pre {["w"]} = Some st1
                   ∧ ({["w"]} : gset string) ⊆ seen_urls st1
                   ∧ seen_urls st1 ⊆ seen_urls st)
       ∧ (∀ cutoff_date es1 es2 acc seen,
            seen ⊆ (entries_loop demo_parser_parse cutoff_date es1 acc seen).2
            ∧ (entries_loop demo_parser_parse cutoff_date es1 acc seen).2
              ⊆ (entries_loop demo_parser_parse cutoff_date (es1 ++ es2)
                   acc seen).2)).
Proof.
  eexists. split; [reflexivity|].
  apply (seen_set_grows demo_session_get demo_feedparser_parse
           demo_parser_parse demo_now ["http://a"; "http://b"] {["w"]} 7).
  reflexivity.
Defined.

Lemma same_title_replaces_witness :
  ∃ st1 feed old new_entries seen',
    cutoff_of demo_now 7 = Some demo_cutoff
    ∧ demo_run ["http://d"] ∅ = Some st1
    ∧ fetch_feed demo_session_get demo_feedparser_parse "http://e" = Some feed
    ∧ dict_get (default "Untitled Feed" (feed_title feed))
               (new_articles_by_feed st1) = Some old
    ∧ entries_loop demo_parser_parse demo_cutoff (entries feed) []
        (seen_urls st1) = (Some new_entries, seen')
    ∧ new_entries ≠ []
    ∧ ∃ st,
        demo_run (["http://d"] ++ ["http://e"]) ∅ = Some st
        ∧ dict_get (default "Untitled Feed" (feed_title feed))
                   (new_articles_by_feed st)
          = Some (sort_newest_first new_entries)
        ∧ map fst (new_articles_by_feed st) = map fst (new_articles_by_feed st1)
        ∧ total_articles (new_articles_by_feed st) + length old
          = total_articles (new_articles_by_feed st1) + length new_entries
        ∧ ∀ a, a ∈ old →
               link a ∈ seen_urls st
               ∧ link a ∉ all_links (new_articles_by_feed st).
Proof.
  eexists _, _, _, _, _. split; [reflexivity|]. split; [reflexivity|].
  split; [reflexivity|]. split; [reflexivity|]. split; [reflexivity|].
  split; [discriminate|].
  eapply (same_title_replaces demo_session_get demo_feedparser_parse
            demo_parser_parse demo_now ["http://d"] "http://e" ∅ 7 demo_cutoff);
    [reflexivity|reflexivity|reflexivity|reflexivity|reflexivity|discriminate].
Defined.

(** * More of the pipeline *)

Lemma dict_set_keys {V} k (v : V) d :
  NoDup (map fst d) → NoDup (map fst (dict_set k v d)).
Proof.
  intros Hnd.
  destruct (dict_set_split k v d) as [[Hn ->]|(d1 & old & d2 & _ & -> & ->)].
  - rewrite map_app. simpl. apply NoDup_app. split; [done|].
    split; [|apply NoDup_singleton].
    intros k' Hk' ->%list_elem_of_singleton.
    apply list_elem_of_fmap in Hk' as ([k'' v'] & -> & Hin). simpl in Hn.
    clear Hnd. induction d as [|[k1 v1] d IH]; [by apply elem_of_nil in Hin|].
    simpl in Hn. case_decide; [done|].
    apply elem_of_cons in Hin as [[= -> ->]|Hin]; [done|by apply IH].
  - by rewrite map_app in Hnd |- *.
Qed.

Lemma dict_set_length {V} k (v : V) d :
  length (dict_set k v d) ≤ S (length d).
Proof.
  destruct (dict_set_split k v d) as [[_ ->]|(d1 & old & d2 & _ & -> & ->)];
    rewrite !length_app; simpl; lia.
Qed.

Section PipelineMore.

Variable session_get : string → http_outcome.
Variable feedparser_parse : string → option parsed_feed.
Variable parser_parse : string → parse_outcome.

Local Abbreviation fetch := (fetch_feed session_get feedparser_parse).
Local Abbreviation inner := (entries_loop parser_parse).
Local Abbreviation step := (process_feed session_get feedparser_parse parser_parse).
Local Abbreviation outer := (feeds_loop session_get feedparser_parse parser_parse).

(** What the loop body builds: a link that is not empty, an aware date,
    not before the cutoff. *)
Lemma entry_article_shape cutoff_date e a :
  entry_article parser_parse cutoff_date e = Some a →
  link a ≠ EmptyString
  ∧ entry_link e = Some (link a)
  ∧ title a = default "No Title" (entry_title e)
  ∧ is_Some (utcoffset (date a))
  ∧ (instant cutoff_date ≤ instant (date a))%Z.
Proof.
  unfold entry_article, process_entry.
  destruct (entry_link e) as [[|ch lnk]|]; simpl; [done| |done].
  rewrite bool_decide_eq_false_2 by apply not_elem_of_empty.
  unfold entry_date. destruct (py_not (pub_date_str e)); [done|].
  destruct (parser_parse _) as [d| |]; [|done..].
  unfold datetime_ge.
  destruct (Z.leb_spec (instant cutoff_date)
              (instant match utcoffset d with
                       | Some _ => d
                       | None => replace_tzinfo_utc d
                       end)) as [Hle|]; [|done].
  intros [= <-]. simpl. repeat (split; [done|]). split; [|done].
  destruct (utcoffset d) eqn:Hd; simpl; [by rewrite Hd|done].
Qed.

(** An exception leaves the loop over the entries only at an entry whose
    date raises. *)
Lemma entries_loop_raise cutoff_date es acc seen :
  (inner cutoff_date es acc seen).1 = None →
  ∃ e, e ∈ es ∧ entry_date parser_parse e = DateRaises.
Proof.
  revert acc seen. induction es as [|e es IH]; intros acc seen; simpl; [done|].
  destruct (process_entry parser_parse cutoff_date seen e) eqn:He.
  - intros (e' & ? & ?)%IH. exists e'. by split; [right|].
  - intros (e' & ? & ?)%IH. exists e'. by split; [right|].
  - intros _. exists e. split; [left|].
    unfold process_entry in He. destruct (_ || _); [done|].
    destruct (entry_date parser_parse e); [done|done|].
    by destruct (datetime_ge _ _).
Qed.

(** The keys of the result are distinct and no list under them is empty. *)
Lemma feeds_loop_keys cutoff_date feed_urls st0 :
  NoDup (map fst (new_articles_by_feed st0)) →
  (∀ t arts, (t, arts) ∈ new_articles_by_feed st0 → arts ≠ []) →
  NoDup (map fst (new_articles_by_feed (outer cutoff_date feed_urls st0)))
  ∧ ∀ t arts,
      (t, arts) ∈ new_articles_by_feed (outer cutoff_date feed_urls st0) →
      arts ≠ [].
Proof.
  intros Hnd Hne.
  apply (feeds_loop_invariant session_get feedparser_parse parser_parse
           cutoff_date
           (λ st, NoDup (map fst (new_articles_by_feed st))
                  ∧ ∀ t arts, (t, arts) ∈ new_articles_by_feed st → arts ≠ []));
    [|done].
  intros st url _ [Hk He].
  destruct (process_feed_out session_get feedparser_parse parser_parse
              cutoff_date st url)
    as [_ [->|(feed & arts & _ & _ & Harts & _ & ->)]]; [done|].
  split; [by apply dict_set_keys|].
  intros t arts' [[= -> ->]|Hin]%dict_set_elem; [|by eapply He].
  by intros ?%sort_newest_first_nil.
Qed.

(** X1 (shape of the result).  In the result of a run the titles are
    distinct and no list is empty; every article has a link that is not the
    empty string and is in the returned seen set, a date with a time zone,
    and a date not before the cutoff. *)
Theorem result_map_shape now feed_urls seen0 days st :
  fetch_and_process_feeds session_get feedparser_parse parser_parse
    now feed_urls seen0 days = Some st →
  ∃ cutoff_date,
    cutoff_of now days = Some cutoff_date
    ∧ NoDup (map fst (new_articles_by_feed st))
    ∧ ∀ t arts,
        (t, arts) ∈ new_articles_by_feed st →
        arts ≠ []
        ∧ ∀ a, a ∈ arts →
               link a ≠ EmptyString
               ∧ link a ∈ seen_urls st
               ∧ is_Some (utcoffset (date a))
               ∧ (instant cutoff_date ≤ instant (date a))%Z.
Proof.
  intros Hrun.
  pose proof (run_links_fresh _ _ _ _ _ _ _ _ Hrun) as (_ & Hlinks & _).
  destruct (run_prefix session_get feedparser_parse parser_parse now
              feed_urls [] seen0 days st) as (c & _ & Hc & _).
  { by rewrite app_nil_r. }
  rewrite (run_unfold _ _ _ _ _ _ _ _ Hc) in Hrun. injection Hrun as Hrun.
  exists c. split; [done|].
  destruct (feeds_loop_keys c feed_urls
              {| new_articles_by_feed := []; seen_urls := seen0;
                 failed_feeds := [] |}) as [Hk Hne].
  { constructor. }
  { by intros ? ? ?%elem_of_nil. }
  rewrite Hrun in Hk, Hne. split; [done|].
  intros t arts Hin. split; [by eapply Hne|]. intros a Ha.
  assert (link a ∈ seen_urls st) as Hseen.
  { apply Hlinks, elem_of_all_links. by exists t, arts, a. }
  rewrite <- Hrun in Hin.
  apply feeds_loop_lists in Hin
    as (url & feed & new_entries & _ & _ & _ & Hsub & ->); [|done].
  rewrite sort_newest_first_perm in Ha.
  eapply elem_of_sublist in Ha; [|exact Hsub].
  apply list_elem_of_omap in Ha as (e & _ & He).
  apply entry_article_shape in He as (? & _ & _ & ? & ?). done.
Qed.

(** The failures after the loop: those before, then some of the URLs of
    the list, in the order of the list. *)
Lemma feeds_loop_failures cutoff_date feed_urls st :
  ∃ r,
    failed_feeds (outer cutoff_date feed_urls st) = failed_feeds st ++ r
    ∧ sublist r feed_urls
    ∧ (∀ url, url ∈ feed_urls → fetch url = None → url ∈ r)
    ∧ (∀ url, url ∈ r →
              fetch url = None
              ∨ ∃ feed e, fetch url = Some feed ∧ e ∈ entries feed
                          ∧ entry_date parser_parse e = DateRaises)
    ∧ length (new_articles_by_feed (outer cutoff_date feed_urls st))
      + length r
      ≤ length (new_articles_by_feed st) + length feed_urls.
Proof.
  revert st. induction feed_urls as [|u us IH]; intros st; simpl.
  - exists []. rewrite app_nil_r. split; [done|]. split; [done|].
    split; [by intros ? ?%elem_of_nil|]. split; [by intros ? ?%elem_of_nil|].
    simpl. lia.
  - destruct (IH (step cutoff_date st u)) as (r & -> & Hsub & Hall & Hcause & Hlen).
    assert ((failed_feeds (step cutoff_date st u) = failed_feeds st ++ [u]
             ∧ new_articles_by_feed (step cutoff_date st u)
               = new_articles_by_feed st
             ∧ (fetch u = None
                ∨ ∃ feed e, fetch u = Some feed ∧ e ∈ entries feed
                            ∧ entry_date parser_parse e = DateRaises))
            ∨ (failed_feeds (step cutoff_date st u) = failed_feeds st
               ∧ is_Some (fetch u)
               ∧ length (new_articles_by_feed (step cutoff_date st u))
                 ≤ S (length (new_articles_by_feed st)))) as [(Hf & Ho & Hc)|(Hf & Hs & Ho)].
    { unfold process_feed. destruct (fetch u) as [feed|] eqn:Hfetch;
        [|left; by auto].
      destruct (inner cutoff_date (entries feed) [] (seen_urls st))
        as [[[|a arts]|] seen'] eqn:Hloop; simpl.
      - right. split; [done|]. split; [by eexists|lia].
      - right. split; [done|]. split; [by eexists|]. apply dict_set_length.
      - left. split; [done|]. split; [done|]. right.
        destruct (entries_loop_raise cutoff_date (entries feed) []
                    (seen_urls st)) as (e & ? & ?); [by rewrite Hloop|].
        by exists feed, e. }
    + exists (u :: r). rewrite Hf, <- app_assoc. split; [done|].
      split; [by apply sublist_skip|]. split; [|split].
      * intros url [->|Hin]%elem_of_cons Hnone; [left|right; by apply Hall].
      * intros url [->|Hin]%elem_of_cons; [done|by apply Hcause].
      * rewrite Ho in Hlen. simpl. lia.
    + exists r. rewrite Hf. split; [done|].
      split; [by apply sublist_cons|]. split; [|split; [done|]].
      * intros url [->|Hin]%elem_of_cons Hnone; [|by apply Hall].
        rewrite Hnone in Hs. by destruct Hs.
      * simpl. lia.
Qed.

(** X2 (the failure list).  The failure list of a run is made of URLs of
    the input list, in input order; it holds every feed that could not be
    fetched or parsed, and a feed is in it only for that reason or because
    the date of one of its entries raised.  A feed gives a title to the
    result or a failure, never both: titles and failures together are at
    most as many as the feeds. *)
Theorem failures_in_input_order now feed_urls seen0 days st :
  fetch_and_process_feeds session_get feedparser_parse parser_parse
    now feed_urls seen0 days = Some st →
  sublist (failed_feeds st) feed_urls
  ∧ (∀ url, url ∈ feed_urls → fetch url = None → url ∈ failed_feeds st)
  ∧ (∀ url, url ∈ failed_feeds st →
            fetch url = None
            ∨ ∃ feed e, fetch url = Some feed ∧ e ∈ entries feed
                        ∧ entry_date parser_parse e = DateRaises)
  ∧ length (new_articles_by_feed st) + length (failed_feeds st)
    ≤ length feed_urls.
Proof.
  unfold fetch_and_process_feeds.
  destruct (cutoff_of now days) as [c|]; [|done]. intros [= <-].
  destruct (feeds_loop_failures c feed_urls
              {| new_articles_by_feed := []; seen_urls := seen0;
                 failed_feeds := [] |}) as (r & -> & ? & ? & ? & ?).
  done.
Qed.




(** X5 (what joins the set).  A link in the set that a run returns was in
    the set given to the run, or is the link, not empty, of an entry of one
    of the feeds whose date is not before the cutoff. *)
Theorem seen_set_gains_only_accepted now feed_urls seen0 days st :
  fetch_and_process_feeds session_get feedparser_parse parser_parse
    now feed_urls seen0 days = Some st →
  ∃ cutoff_date,
    cutoff_of now days = Some cutoff_date
    ∧ ∀ l, l ∈ seen_urls st →
           l ∈ seen0
           ∨ ∃ url feed e d,
               url ∈ feed_urls ∧ fetch url = Some feed ∧ e ∈ entries feed
               ∧ entry_link e = Some l ∧ l ≠ EmptyString
               ∧ entry_date parser_parse e = PubDate d
               ∧ (instant cutoff_date ≤ instant d)%Z.
Proof.
  unfold fetch_and_process_feeds.
  destruct (cutoff_of now days) as [c|]; [|done]. intros [= <-].
  exists c. split; [done|]. intros l Hl.
  apply feeds_loop_origin in Hl
    as [?|(url & feed & e & a & Hu & Hf & He & Hlink & Ha)]; [by left|].
  right. exists url, feed, e, (date a).
  pose proof (entry_article_shape _ _ _ Ha) as (Hne & Hlink' & _).
  apply entry_article_date in Ha as [Hd Hge].
  rewrite Hlink in Hlink'. injection Hlink' as ->. done.
Qed.

(** X6 (an empty published date).  When the key published is present and
    holds the empty string, the entry is skipped whatever the key updated
    holds: the second key is read only when the first is absent. *)
Theorem published_empty_hides_updated cutoff_date seen e :
  entry_published e = Some EmptyString →
  process_entry parser_parse cutoff_date seen e = Skip.
Proof.
  intros Hp. apply unparseable_date_skipped. left.
  unfold pub_date_str. by rewrite Hp.
Qed.

End PipelineMore.

(** * The seen-set store, once more *)

(** X7 (save, then load).  What [save_seen_articles] writes at a path,
    [load_seen_articles] reads back as the same set, whatever was at the
    path before; and saving touches no other path. *)
Theorem save_then_load seen fs fs' file_path :
  save_seen_articles seen fs file_path = Returns fs' →
  load_seen_articles fs' file_path = Returns seen
  ∧ ∀ other, other ≠ file_path → fs' !! other = fs !! other.
Proof.
  intros Hsave. split; [by eapply load_after_save|].
  unfold save_seen_articles in Hsave.
  intros other Hne.
  destruct (fs !! file_path) as [[|c]|]; [done| |];
    injection Hsave as <-; by rewrite lookup_insert_ne.
Qed.

(** X8 (the last save wins).  After a save that went through, a second
    save at the same path goes through too and replaces the first: the file
    system is the one that the second save alone would have left, and the
    set read back is the second set, with nothing of the first added. *)
Theorem save_overwrites seen1 seen2 fs fs1 file_path :
  save_seen_articles seen1 fs file_path = Returns fs1 →
  ∃ fs2,
    save_seen_articles seen2 fs1 file_path = Returns fs2
    ∧ save_seen_articles seen2 fs file_path = Returns fs2
    ∧ load_seen_articles fs2 file_path = Returns seen2.
Proof.
  unfold save_seen_articles.
  destruct (fs !! file_path) as [[|c]|] eqn:Hfs; [done| |];
    intros [= <-]; rewrite lookup_insert_eq;
    eexists; (split; [done|]); rewrite insert_insert_eq;
    (split; [done|]);
    unfold load_seen_articles;
    by rewrite lookup_insert_eq, list_to_set_elements_L.
Qed.

(** * The digest *)

Lemma append_nil_r s : s +:+ EmptyString = s.
Proof.
  induction s as [|c s IH]; [done|].
  change (String c (s +:+ EmptyString) = String c s). by f_equal.
Qed.

Lemma append_assoc s1 s2 s3 : (s1 +:+ s2) +:+ s3 = s1 +:+ s2 +:+ s3.
Proof.
  induction s1 as [|c s1 IH]; [done|].
  change (String c ((s1 +:+ s2) +:+ s3) = String c (s1 +:+ s2 +:+ s3)).
  by f_equal.
Qed.

Lemma occurs_in_here before needle after :
  occurs_in needle (before +:+ needle +:+ after).
Proof. by exists before, after. Qed.

Lemma occurs_in_append_l needle s1 s2 :
  occurs_in needle s1 → occurs_in needle (s1 +:+ s2).
Proof.
  intros (b & a & ->). exists b, (a +:+ s2). by rewrite !append_assoc.
Qed.

Lemma occurs_in_append_r needle s1 s2 :
  occurs_in needle s2 → occurs_in needle (s1 +:+ s2).
Proof.
  intros (b & a & ->). exists (s1 +:+ b), a. by rewrite !append_assoc.
Qed.

Lemma occurs_in_trans s1 s2 s3 :
  occurs_in s1 s2 → occurs_in s2 s3 → occurs_in s1 s3.
Proof.
  intros (b & a & ->) (b' & a' & ->).
  exists (b' +:+ b), (a +:+ a'). by rewrite !append_assoc.
Qed.

(** A loop that appends one text per item appends their concatenation. *)
Lemma foldl_append {A} (g : string → A → string) (f : A → string) :
  (∀ h x, g h x = h +:+ f x) →
  ∀ html l, foldl g html l = html +:+ concat_map f l.
Proof.
  intros Hg html l. revert html.
  induction l as [|x l IH]; intros html; cbn [foldl concat_map foldr].
  - by rewrite append_nil_r.
  - by rewrite IH, Hg, append_assoc.
Qed.

Lemma occurs_in_concat_map {A} (f : A → string) (l : list A) x :
  x ∈ l → occurs_in (f x) (concat_map f l).
Proof.
  induction 1 as [x l|x y l _ IH]; simpl.
  - exists EmptyString, (concat_map f l). done.
  - by apply occurs_in_append_r.
Qed.

Section DigestFacts.

Variable strftime_b_d : datetime → string.

Lemma add_feed_section html kv :
  add_feed strftime_b_d html kv = html +:+ feed_section strftime_b_d kv.
Proof.
  unfold add_feed, feed_section. cbn [fst snd].
  rewrite (foldl_append _ (article_item strftime_b_d)) by done.
  by rewrite !append_assoc.
Qed.

(** The loops that append, written as one concatenation. *)
Lemma format_html_output_layout current_date new_articles failed_feeds article_age_days :
  format_html_output strftime_b_d current_date new_articles failed_feeds
    article_age_days
  = html_head
    +:+ ("<h1>RSS Digest - " +:+ current_date +:+ "</h1>")
    +:+ digest_summary new_articles article_age_days
    +:+ concat_map (feed_section strftime_b_d) new_articles
    +:+ failure_panel failed_feeds
    +:+ html_tail.
Proof.
  unfold format_html_output.
  assert (∀ html,
            foldl (add_feed strftime_b_d) html new_articles
            = html +:+ concat_map (feed_section strftime_b_d) new_articles)
    as Hfeeds.
  { intros html. apply foldl_append. apply add_feed_section. }
  assert (match new_articles with
          | [] => (html_head
                   +:+ ("<h1>RSS Digest - " +:+ current_date +:+ "</h1>"))
                  +:+ no_articles_summary article_age_days
          | _ :: _ =>
              foldl (add_feed strftime_b_d)
                ((html_head
                  +:+ ("<h1>RSS Digest - " +:+ current_date +:+ "</h1>"))
                 +:+ articles_summary new_articles article_age_days)
                new_articles
          end
          = html_head
            +:+ ("<h1>RSS Digest - " +:+ current_date +:+ "</h1>")
            +:+ digest_summary new_articles article_age_days
            +:+ concat_map (feed_section strftime_b_d) new_articles) as ->.
  { destruct new_articles as [|kv d].
    - cbn [digest_summary concat_map foldr].
      by rewrite append_nil_r, !append_assoc.
    - rewrite Hfeeds. unfold digest_summary. by rewrite !append_assoc. }
  destruct failed_feeds as [|u us].
  - cbn [failure_panel]. change (EmptyString +:+ html_tail) with html_tail.
    by rewrite !append_assoc.
  - unfold failure_panel.
    rewrite (foldl_append _ failed_item) by done. by rewrite !append_assoc.
Qed.

(** X9 (the layout of the digest).  The document that the appends build is,
    in this order: the head, the title line with the day, the summary, one
    section per title in the order of the result map, each with one item
    per article in the order of its list, the panel of the failures when
    there are some, and the tail. *)
Theorem digest_layout current_date new_articles failed_feeds article_age_days :
  format_html_output strftime_b_d current_date new_articles failed_feeds
    article_age_days
  = html_head
    +:+ ("<h1>RSS Digest - " +:+ current_date +:+ "</h1>")
    +:+ digest_summary new_articles article_age_days
    +:+ concat_map (feed_section strftime_b_d) new_articles
    +:+ failure_panel failed_feeds
    +:+ html_tail.
Proof. apply format_html_output_layout. Qed.

(** X10 (every article is shown, as it is).  For each title of the result
    map and each article under it, the document holds the heading with the
    title and the number of its articles, and the anchor of the article
    with its link and its title: both texts are put in verbatim, whatever
    characters they hold. *)
Theorem digest_shows_every_article current_date new_articles failed_feeds
    article_age_days t arts a :
  (t, arts) ∈ new_articles → a ∈ arts →
  occurs_in
    ("<h2>" +:+ t +:+ " (" +:+ py_str_nat (length arts) +:+ " articles)</h2>")
    (format_html_output strftime_b_d current_date new_articles failed_feeds
       article_age_days)
  ∧ occurs_in
      ("<a href=" +:+ dq +:+ link a +:+ dq +:+ " target=" +:+ dq +:+ "_blank"
       +:+ dq +:+ ">" +:+ title a +:+ "</a>")
      (format_html_output strftime_b_d current_date new_articles failed_feeds
         article_age_days).
Proof.
  intros Hin Ha. rewrite format_html_output_layout.
  assert (occurs_in (feed_section strftime_b_d (t, arts))
            (concat_map (feed_section strftime_b_d) new_articles)) as Hsec.
  { by apply (occurs_in_concat_map (feed_section strftime_b_d)). }
  assert (∀ needle,
            occurs_in needle (feed_section strftime_b_d (t, arts)) →
            occurs_in needle
              (html_head
               +:+ ("<h1>RSS Digest - " +:+ current_date +:+ "</h1>")
               +:+ digest_summary new_articles article_age_days
               +:+ concat_map (feed_section strftime_b_d) new_articles
               +:+ failure_panel failed_feeds +:+ html_tail)) as Hdoc.
  { intros needle Hn. do 3 apply occurs_in_append_r.
    apply occurs_in_append_l. by eapply occurs_in_trans. }
  split; apply Hdoc; unfold feed_section; cbn [fst snd].
  - apply occurs_in_append_l. unfold feed_heading.
    exists EmptyString, "<ul>". cbn [String.append]. by rewrite !append_assoc.
  - apply occurs_in_append_r, occurs_in_append_l.
    eapply occurs_in_trans;
      [|by apply (occurs_in_concat_map (article_item strftime_b_d))].
    unfold article_item.
    exists ("<li><span class=" +:+ dq +:+ "article-date" +:+ dq +:+ ">"
            +:+ strftime_b_d (date a) +:+ "</span>"), "</li>".
    by rewrite !append_assoc.
Qed.

(** X11 (the failures are shown, and only added).  The failures change the
    document in one place: the panel, put before the tail of the document
    that would be there without them.  With no failure there is no panel;
    with some, the panel holds their number and each URL as it is. *)
Theorem digest_shows_every_failure current_date new_articles failed_feeds
    article_age_days :
  ∃ before,
    format_html_output strftime_b_d current_date new_articles []
      article_age_days = before +:+ html_tail
    ∧ format_html_output strftime_b_d current_date new_articles failed_feeds
        article_age_days
      = before +:+ failure_panel failed_feeds +:+ html_tail
    ∧ (failed_feeds = [] → failure_panel failed_feeds = EmptyString)
    ∧ ∀ url, url ∈ failed_feeds →
             occurs_in ("<li>" +:+ url +:+ "</li>") (failure_panel failed_feeds)
             ∧ occurs_in
                 ("<h3>Failed to Fetch (" +:+ py_str_nat (length failed_feeds)
                  +:+ " feeds)</h3>")
                 (failure_panel failed_feeds).
Proof.
  exists (html_head
          +:+ ("<h1>RSS Digest - " +:+ current_date +:+ "</h1>")
          +:+ digest_summary new_articles article_age_days
          +:+ concat_map (feed_section strftime_b_d) new_articles).
  rewrite !format_html_output_layout. cbn [failure_panel].
  change (EmptyString +:+ html_tail) with html_tail.
  split; [by rewrite !append_assoc|]. split; [by rewrite !append_assoc|].
  split; [by intros ->|].
  intros url Hin. destruct failed_feeds as [|u us]; [by apply elem_of_nil in Hin|].
  unfold failure_panel. split.
  - do 9 apply occurs_in_append_r. apply occurs_in_append_l.
    by apply (occurs_in_concat_map failed_item).
  - do 5 apply occurs_in_append_r.
    exists EmptyString,
      ("<p>The following feeds could not be processed:</p><ul>"
       +:+ concat_map failed_item (u :: us) +:+ "</ul></div>").
    cbn [String.append]. by rewrite !append_assoc.
Qed.

End DigestFacts.

(** * The script as a whole *)

Lemma main_fails_status e fs : exit_status (main_fails e fs) ≠ 0%Z.
Proof. unfold main_fails. cbn [exit_status]. discriminate. Qed.

(** What a run that ends well has done. *)
Lemma main_success w :
  exit_status (main w) = 0%Z →
  ∃ feed_urls article_age_days seen_articles_file seen st fs,
    w_config_at w "rss_sources.json"
    = ConfigObject
        {| config_feeds := Some feed_urls;
           config_settings :=
             Some {| settings_article_age_days := Some article_age_days;
                     settings_seen_articles_file := Some seen_articles_file |}
        |}
    ∧ load_seen_articles (w_files w) seen_articles_file = Returns seen
    ∧ fetch_and_process_feeds (w_session_get w) (w_feedparser_parse w)
        (w_parser_parse w) (w_now w) feed_urls seen article_age_days = Some st
    ∧ save_seen_articles (seen_urls st) (w_files w) seen_articles_file
      = Returns fs
    ∧ main w
      = {| exit_status := 0;
           stdout :=
             [format_html_output (w_strftime_b_d w) (w_today w)
                (new_articles_by_feed st) (failed_feeds st) article_age_days];
           stderr :=
             [TextLine
                ("Processed " +:+ py_str_nat (length feed_urls)
                 +:+ " feeds, found "
                 +:+ py_str_nat (total_articles (new_articles_by_feed st))
                 +:+ " new articles")];
           files_after := fs |}.
Proof.
  unfold main, load_config.
  destruct (w_config_at w "rss_sources.json") as [| | |[[feed_urls|] [[[days|] [path|]]|]]];
    cbn [config_feeds config_settings settings_article_age_days
         settings_seen_articles_file];
    try (by intros ?%main_fails_status).
  destruct (load_seen_articles (w_files w) path) as [seen|] eqn:Hload;
    [|by intros ?%main_fails_status].
  destruct (fetch_and_process_feeds _ _ _ _ _ _ _) as [st|] eqn:Hrun;
    [|by intros ?%main_fails_status].
  destruct (save_seen_articles _ _ _) as [fs|] eqn:Hsave;
    [|by intros ?%main_fails_status].
  intros _. by exists feed_urls, days, path, seen, st, fs.
Qed.



(** X13 (a run that ends well).  When the script ends with status 0, it
    has printed one document, the digest of what the pipeline returned, and
    one summary line with the number of configured feeds and the number of
    articles of the digest.  The seen-articles file then reads back as the
    set the pipeline returned, which contains the set read at the start and
    the link of every article of the digest; no other file has changed. *)
Theorem main_prints_and_saves w :
  exit_status (main w) = 0%Z →
  ∃ feed_urls article_age_days seen_articles_file seen st,
    w_config_at w "rss_sources.json"
    = ConfigObject
        {| config_feeds := Some feed_urls;
           config_settings :=
             Some {| settings_article_age_days := Some article_age_days;
                     settings_seen_articles_file := Some seen_articles_file |}
        |}
    ∧ load_seen_articles (w_files w) seen_articles_file = Returns seen
    ∧ fetch_and_process_feeds (w_session_get w) (w_feedparser_parse w)
        (w_parser_parse w) (w_now w) feed_urls seen article_age_days = Some st
    ∧ stdout (main w)
      = [format_html_output (w_strftime_b_d w) (w_today w)
           (new_articles_by_feed st) (failed_feeds st) article_age_days]
    ∧ stderr (main w)
      = [TextLine
           ("Processed " +:+ py_str_nat (length feed_urls)
            +:+ " feeds, found "
            +:+ py_str_nat (total_articles (new_articles_by_feed st))
            +:+ " new articles")]
    ∧ load_seen_articles (files_after (main w)) seen_articles_file
      = Returns (seen_urls st)
    ∧ seen ⊆ seen_urls st
    ∧ (∀ l, l ∈ all_links (new_articles_by_feed st) → l ∈ seen_urls st)
    ∧ ∀ other, other ≠ seen_articles_file →
               files_after (main w) !! other = w_files w !! other.
Proof.
  intros (feed_urls & days & path & seen & st & fs & Hc & Hload & Hrun
          & Hsave & ->)%main_success.
  exists feed_urls, days, path, seen, st. cbn [stdout stderr files_after].
  split; [done|]. split; [done|]. split; [done|]. split; [done|].
  split; [done|].
  pose proof (run_links_fresh _ _ _ _ _ _ _ _ Hrun) as (Hsub & Hlinks & _).
  split; [by eapply load_after_save|]. split; [done|].
  split; [intros l Hl; by apply Hlinks|].
  intros other Hne. unfold save_seen_articles in Hsave.
  destruct (w_files w !! path) as [[|c]|]; [done| |];
    injection Hsave as <-; by rewrite lookup_insert_ne.
Qed.



(** * The further properties at work in the small world *)



Lemma result_map_shape_witness :
  ∃ st,
    demo_run ["http://a"; "http://b"] ∅ = Some st
    ∧ ∃ cutoff_date,
        cutoff_of demo_now 7 = Some cutoff_date
        ∧ NoDup (map fst (new_articles_by_feed st))
        ∧ ∀ t arts,
            (t, arts) ∈ new_articles_by_feed st →
            arts ≠ []
            ∧ ∀ a, a ∈ arts →
                   link a ≠ EmptyString
                   ∧ link a ∈ seen_urls st
                   ∧ is_Some (utcoffset (date a))
                   ∧ (instant cutoff_date ≤ instant (date a))%Z.
Proof.
  eexists. split; [reflexivity|].
  apply (result_map_shape demo_session_get demo_feedparser_parse
           demo_parser_parse demo_now ["http://a"; "http://b"] ∅ 7).
  reflexivity.
Defined.

Lemma failures_in_input_order_witness :
  ∃ st,
    demo_run ["http://a"; "http://down"; "http://c"] ∅ = Some st
    ∧ (sublist (failed_feeds st) ["http://a"; "http://down"; "http://c"]
       ∧ (∀ url, url ∈ ["http://a"; "http://down"; "http://c"] →
                 fetch_feed demo_session_get demo_feedparser_parse url = None →
                 url ∈ failed_feeds st)
       ∧ (∀ url, url ∈ failed_feeds st →
                 fetch_feed demo_session_get demo_feedparser_parse url = None
                 ∨ ∃ feed e,
                     fetch_feed demo_session_get demo_feedparser_parse url
                     = Some feed
                     ∧ e ∈ entries feed
                     ∧ entry_date demo_parser_parse e = DateRaises)
       ∧ length (new_articles_by_feed st) + length (failed_feeds st)
         ≤ length ["http://a"; "http://down"; "http://c"]).
Proof.
  eexists. split; [reflexivity|].
  apply (failures_in_input_order demo_session_get demo_feedparser_parse
           demo_parser_parse demo_now ["http://a"; "http://down"; "http://c"]
           ∅ 7).
  reflexivity.
Defined.



Lemma seen_set_gains_only_accepted_witness :
  ∃ st,
    demo_run ["http://a"] {["w"]} = Some st
    ∧ ∃ cutoff_date,
        cutoff_of demo_now 7 = Some cutoff_date
        ∧ ∀ l, l ∈ seen_urls st →
               l ∈ ({["w"]} : gset string)
               ∨ ∃ url feed e d,
                   url ∈ ["http://a"]
                   ∧ fetch_feed demo_session_get demo_feedparser_parse url
                     = Some feed
                   ∧ e ∈ entries feed
                   ∧ entry_link e = Some l ∧ l ≠ EmptyString
                   ∧ entry_date demo_parser_parse e = PubDate d
                   ∧ (instant cutoff_date ≤ instant d)%Z.
Proof.
  eexists. split; [reflexivity|].
  apply (seen_set_gains_only_accepted demo_session_get demo_feedparser_parse
           demo_parser_parse demo_now ["http://a"] {["w"]} 7).
  reflexivity.
Defined.

Lemma published_empty_hides_updated_witness :
  entry_published
    {| entry_link := Some "k"; entry_published := Some EmptyString;
       entry_updated := Some "new"; entry_title := None |}
  = Some EmptyString
  ∧ process_entry demo_parser_parse demo_cutoff ∅
      {| entry_link := Some "k"; entry_published := Some EmptyString;
         entry_updated := Some "new"; entry_title := None |}
    = Skip.
Proof.
  split; [reflexivity|].
  apply (published_empty_hides_updated demo_parser_parse demo_cutoff ∅).
  reflexivity.
Defined.

Lemma save_then_load_witness :
  ∃ fs',
    save_seen_articles {["x"]} ∅ "seen_articles.json" = Returns fs'
    ∧ (load_seen_articles fs' "seen_articles.json" = Returns {["x"]}
       ∧ ∀ other, other ≠ "seen_articles.json" →
                  fs' !! other = (∅ : filesystem) !! other).
Proof.
  eexists. split; [reflexivity|].
  apply (save_then_load {["x"]} ∅ _ "seen_articles.json"). reflexivity.
Defined.

Lemma save_overwrites_witness :
  ∃ fs1,
    save_seen_articles {["x"]} ∅ "seen_articles.json" = Returns fs1
    ∧ ∃ fs2,
        save_seen_articles {["y"]} fs1 "seen_articles.json" = Returns fs2
        ∧ save_seen_articles {["y"]} ∅ "seen_articles.json" = Returns fs2
        ∧ load_seen_articles fs2 "seen_articles.json" = Returns {["y"]}.
Proof.
  eexists. split; [reflexivity|].
  apply (save_overwrites {["x"]} {["y"]} ∅ _ "seen_articles.json").
  reflexivity.
Defined.

Lemma digest_shows_every_article_witness :
  ("Alpha <beta>",
   [{| title := "Tom & <b>Jerry</b>"; link := "http://x/?a=1&b=2";
       date := demo_cutoff |}])
  ∈ [("Alpha <beta>",
      [{| title := "Tom & <b>Jerry</b>"; link := "http://x/?a=1&b=2";
          date := demo_cutoff |}])]
  ∧ {| title := "Tom & <b>Jerry</b>"; link := "http://x/?a=1&b=2";
       date := demo_cutoff |}
    ∈ [{| title := "Tom & <b>Jerry</b>"; link := "http://x/?a=1&b=2";
          date := demo_cutoff |}]
  ∧ (occurs_in
       ("<h2>" +:+ "Alpha <beta>" +:+ " ("
        +:+ py_str_nat
              (length [{| title := "Tom & <b>Jerry</b>";
                          link := "http://x/?a=1&b=2";
                          date := demo_cutoff |}])
        +:+ " articles)</h2>")
       (format_html_output demo_strftime_b_d "Sunday, January 11, 1970"
          [("Alpha <beta>",
            [{| title := "Tom & <b>Jerry</b>"; link := "http://x/?a=1&b=2";
                date := demo_cutoff |}])]
          ["http://down"] 7)
     ∧ occurs_in
         ("<a href=" +:+ dq
          +:+ link {| title := "Tom & <b>Jerry</b>";
                      link := "http://x/?a=1&b=2"; date := demo_cutoff |}
          +:+ dq +:+ " target=" +:+ dq +:+ "_blank" +:+ dq +:+ ">"
          +:+ title {| title := "Tom & <b>Jerry</b>";
                       link := "http://x/?a=1&b=2"; date := demo_cutoff |}
          +:+ "</a>")
         (format_html_output demo_strftime_b_d "Sunday, January 11, 1970"
            [("Alpha <beta>",
              [{| title := "Tom & <b>Jerry</b>"; link := "http://x/?a=1&b=2";
                  date := demo_cutoff |}])]
            ["http://down"] 7)).
Proof.
  split; [left|]. split; [left|].
  apply (digest_shows_every_article demo_strftime_b_d
           "Sunday, January 11, 1970"); left.
Defined.

Lemma main_prints_and_saves_witness :
  exit_status
    (main (demo_world (demo_config ["http://a"; "http://down"]) ∅)) = 0%Z
  ∧ ∃ feed_urls article_age_days seen_articles_file seen st,
      w_config_at (demo_world (demo_config ["http://a"; "http://down"]) ∅)
        "rss_sources.json"
      = ConfigObject
          {| config_feeds := Some feed_urls;
             config_settings :=
               Some {| settings_article_age_days := Some article_age_days;
                       settings_seen_articles_file :=
                         Some seen_articles_file |} |}
      ∧ load_seen_articles
          (w_files (demo_world (demo_config ["http://a"; "http://down"]) ∅))
          seen_articles_file = Returns seen
      ∧ fetch_and_process_feeds
          (w_session_get
             (demo_world (demo_config ["http://a"; "http://down"]) ∅))
          (w_feedparser_parse
             (demo_world (demo_config ["http://a"; "http://down"]) ∅))
          (w_parser_parse
             (demo_world (demo_config ["http://a"; "http://down"]) ∅))
          (w_now (demo_world (demo_config ["http://a"; "http://down"]) ∅))
          feed_urls seen article_age_days = Some st
      ∧ stdout (main (demo_world (demo_config ["http://a"; "http://down"]) ∅))
        = [format_html_output
             (w_strftime_b_d
                (demo_world (demo_config ["http://a"; "http://down"]) ∅))
             (w_today
                (demo_world (demo_config ["http://a"; "http://down"]) ∅))
             (new_articles_by_feed st) (failed_feeds st) article_age_days]
      ∧ stderr (main (demo_world (demo_config ["http://a"; "http://down"]) ∅))
        = [TextLine
             ("Processed " +:+ py_str_nat (length feed_urls)
              +:+ " feeds, found "
              +:+ py_str_nat (total_articles (new_articles_by_feed st))
              +:+ " new articles")]
      ∧ load_seen_articles
          (files_after
             (main (demo_world (demo_config ["http://a"; "http://down"]) ∅)))
          seen_articles_file
        = Returns (seen_urls st)
      ∧ seen ⊆ seen_urls st
      ∧ (∀ l, l ∈ all_links (new_articles_by_feed st) → l ∈ seen_urls st)
      ∧ ∀ other, other ≠ seen_articles_file →
                 files_after
                   (main
                      (demo_world (demo_config ["http://a"; "http://down"]) ∅))
                 !! other
                 = w_files
                     (demo_world (demo_config ["http://a"; "http://down"]) ∅)
                   !! other.
Proof.
  assert (exit_status
            (main (demo_world (demo_config ["http://a"; "http://down"]) ∅))
          = 0%Z) as H0 by (vm_compute; reflexivity).
  split; [exact H0|].
  exact (main_prints_and_saves
           (demo_world (demo_config ["http://a"; "http://down"]) ∅) H0).
Defined.



(** * The order of the sections, and the bounds of the cutoff *)

Section PipelineOrder.

Variable session_get : string → http_outcome.
Variable feedparser_parse : string → option parsed_feed.
Variable parser_parse : string → parse_outcome.




End PipelineOrder.

